(** * Push payload builders of [urbanairship/push/payload.py]

    A shallow embedding of the payload construction functions and the
    properties of them that the specification states.

    Python objects live in a store: a dictionary or a list is a location of
    the heap, so that two names for one dictionary see each other's
    updates.  Every builder is a computation in a state-and-exception monad
    over that heap.

    Embedded are [notification], [ios], [open_platform], [wns_payload],
    [message], [in_app], [device_types], [options], [campaigns],
    [media_attachment], [content] and [crop].  Numbers other than integers
    and the keys of a dictionary other than strings are not represented. *)

From Stdlib Require Import ZArith String Ascii List Bool Lia.
From stdpp Require Import base option list gmap strings fin_maps.

#[local] Set Warnings "-register-all".
Local Open Scope string_scope.
Local Open Scope Z_scope.
Local Open Scope list_scope.

(** ** Values and the heap *)

(** A location is an index into the heap. *)
Abbreviation loc := nat (only parsing).

(** Python values.  A [str] is a sequence of characters, one [ascii] each
    (the [basestring] of Python 2, or a [str] of Python 3 over that
    alphabet).  [VFun] is a module-level function object, named. *)
Inductive value : Type :=
  | VNone
  | VBool (b : bool)
  | VInt (n : Z)
  | VStr (s : string)
  | VTuple (xs : list value)
  | VFun (name : string)
  | VRef (l : loc).

(** Mutable objects.  A dictionary maps string keys to values. *)
Inductive obj : Type :=
  | ODict (d : gmap string value)
  | OList (xs : list value).

(** The heap: the objects allocated so far, in the order of allocation. *)
Abbreviation heap := (list obj) (only parsing).

(** Exception classes; the message of an exception is not modelled. *)
Inductive exn : Type :=
  | ValueError
  | TypeError
  | AttributeError.

Inductive outcome (A : Type) : Type :=
  | Ret (a : A)
  | Raise (e : exn).
Arguments Ret {A} a.
Arguments Raise {A} e.

(** ** The monad: a heap goes in, a heap and an outcome come out.  The heap
    survives an exception, as it does in Python. *)
Definition M (A : Type) : Type := heap -> heap * outcome A.

Definition ret {A} (a : A) : M A := fun h => (h, Ret a).

Definition bind {A B} (m : M A) (k : A -> M B) : M B :=
  fun h =>
    match m h with
    | (h', Ret a) => k a h'
    | (h', Raise e) => (h', Raise e)
    end.

Definition raise {A} (e : exn) : M A := fun h => (h, Raise e).

(** A look at the heap that does not change it. *)
Definition read {A} (f : heap -> A) : M A := fun h => (h, Ret (f h)).

Declare Scope py_scope.
Delimit Scope py_scope with py.
Notation "x <- m ;; k" := (bind m (fun x => k))
  (at level 100, m at next level, right associativity) : py_scope.
Notation "m ;;; k" := (bind m (fun _ => k))
  (at level 100, right associativity) : py_scope.
Local Open Scope py_scope.

(** [if c: body] *)
Definition when (c : bool) (body : M unit) : M unit :=
  if c then body else ret tt.

(** ** Primitive operations of the language *)

(** [x is not None] *)
Definition is_not_none (v : value) : bool :=
  match v with VNone => false | _ => true end.

Inductive pytype : Type := TStr | TInt | TBool | TDict | TList | TSequence.

(** [isinstance(v, t)].  [bool] is a subclass of [int]; [str], [tuple] and
    [list] are the sequences of the model.  A location outside the heap
    does not occur in a run of the program and is an instance of nothing. *)
Definition isinstance (h : heap) (v : value) (t : pytype) : bool :=
  match t, v with
  | TStr, VStr _ => true
  | TInt, (VInt _ | VBool _) => true
  | TBool, VBool _ => true
  | TDict, VRef l => match h !! l with Some (ODict _) => true | _ => false end
  | TList, VRef l => match h !! l with Some (OList _) => true | _ => false end
  | TSequence, (VStr _ | VTuple _) => true
  | TSequence, VRef l => match h !! l with Some (OList _) => true | _ => false end
  | _, _ => false
  end.

(** [isinstance(v, (t1, ..., tn))] *)
Definition isinstance_any (h : heap) (v : value) (ts : list pytype) : bool :=
  existsb (isinstance h v) ts.

(** Truth value of an object, as [if x:] tests it. *)
Definition truthy (h : heap) (v : value) : bool :=
  match v with
  | VNone => false
  | VBool b => b
  | VInt n => negb (n =? 0)
  | VStr s => negb (String.eqb s "")
  | VTuple xs => match xs with [] => false | _ => true end
  | VFun _ => true
  | VRef l =>
      match h !! l with
      | Some (ODict d) => negb (bool_decide (d = ∅))
      | Some (OList xs) => match xs with [] => false | _ => true end
      | None => true
      end
  end.

(** [v == s] for a string literal [s]. *)
Definition eq_str (v : value) (s : string) : bool :=
  match v with VStr s' => String.eqb s' s | _ => false end.

(** [{}] and a list display: a fresh object at the end of the heap. *)
Definition alloc (o : obj) : M value :=
  fun h => (h ++ [o], Ret (VRef (length h))).

Definition new_dict : M value := alloc (ODict ∅).
Definition new_list (xs : list value) : M value := alloc (OList xs).

(** [d[k] = v].  Only a dictionary takes a string key: a list wants an
    integer index, and the immutable values support no item assignment. *)
Definition setitem (d : value) (k : string) (v : value) : M unit :=
  fun h =>
    match d with
    | VRef l =>
        match h !! l with
        | Some (ODict m) => (<[l := ODict (<[k := v]> m)]> h, Ret tt)
        | _ => (h, Raise TypeError)
        end
    | _ => (h, Raise TypeError)
    end.

(** [if not cond: raise e] *)
Definition raise_unless (cond : heap -> bool) (e : exn) : M unit :=
  fun h => if cond h then (h, Ret tt) else (h, Raise e).

(** [if cond: raise e] *)
Definition raise_if (cond : heap -> bool) (e : exn) : M unit :=
  fun h => if cond h then (h, Raise e) else (h, Ret tt).

(** Whether [fmt % v] finds the one argument that a format with a single
    [%s] takes: a tuple on the right of [%] is the list of the arguments, any
    other value is the argument. *)
Definition one_argument (v : value) : bool :=
  match v with
  | VTuple [_] => true
  | VTuple _ => false
  | _ => true
  end.

(** [fmt % v] for a format with a single [%s]: [TypeError] when the
    arguments are too few or too many.  The string that is built is not
    modelled, as the messages of exceptions are not. *)
Definition format_s (v : value) : M unit :=
  if one_argument v then ret tt else raise TypeError.

(** [len(v)] *)
Definition len (v : value) : M nat :=
  fun h =>
    match v with
    | VStr s => (h, Ret (String.length s))
    | VTuple xs => (h, Ret (length xs))
    | VRef l =>
        match h !! l with
        | Some (OList xs) => (h, Ret (length xs))
        | Some (ODict d) => (h, Ret (size d))
        | None => (h, Raise TypeError)
        end
    | _ => (h, Raise TypeError)
    end.

(** The characters of a string, each a string of length one. *)
Fixpoint chars (s : string) : list value :=
  match s with
  | EmptyString => []
  | String c s' => VStr (String c EmptyString) :: chars s'
  end.

(** The elements that [for c in v] visits. *)
Definition elements_of (v : value) : M (list value) :=
  fun h =>
    match v with
    | VStr s => (h, Ret (chars s))
    | VTuple xs => (h, Ret xs)
    | VRef l =>
        match h !! l with
        | Some (OList xs) => (h, Ret xs)
        | Some (ODict d) => (h, Ret ((fun kv => VStr kv.1) <$> map_to_list d))
        | None => (h, Raise TypeError)
        end
    | _ => (h, Raise TypeError)
    end.

(** [d.items()]: only a dictionary has the method. *)
Definition items (d : value) : M (list (string * value)) :=
  fun h =>
    match d with
    | VRef l =>
        match h !! l with
        | Some (ODict m) => (h, Ret (map_to_list m))
        | _ => (h, Raise AttributeError)
        end
    | _ => (h, Raise AttributeError)
    end.

(** [for x in xs: body(x)] *)
Fixpoint for_each {A} (xs : list A) (body : A -> M unit) : M unit :=
  match xs with
  | [] => ret tt
  | x :: xs' => body x ;;; for_each xs' body
  end.

(** A dictionary display [{k1: v1, ..., kn: vn}]: a later key wins. *)
Definition dict_of (kvs : list (string * value)) : gmap string value :=
  fold_left (fun m kv => <[kv.1 := kv.2]> m) kvs ∅.

(** [{key: val for key, val in iter(payload.items()) if val is not None}] *)
Definition drop_none (payload : value) : M value :=
  kvs <- items payload ;;
  alloc (ODict (dict_of (List.filter (fun kv => is_not_none kv.2) kvs))).

(** Whether [hash(v)] is defined: lists and dictionaries have no hash, and a
    tuple has one when its elements do. *)
Fixpoint hashable (v : value) : bool :=
  match v with
  | VRef _ => false
  | VTuple xs => forallb hashable xs
  | _ => true
  end.

(** [v in {n1, ..., nk}] for integer literals: the lookup hashes [v] first.
    [True] and [False] compare equal to 1 and 0. *)
Definition in_int_set (v : value) (ns : list Z) : M bool :=
  if hashable v then
    ret (match v with
         | VInt n => existsb (Z.eqb n) ns
         | VBool b => existsb (Z.eqb (Z.b2z b)) ns
         | _ => false
         end)
  else raise TypeError.

(** [v in (s1, ..., sk)] for string literals: a tuple is searched with [==]. *)
Definition in_str_tuple (v : value) (ss : list string) : bool :=
  existsb (eq_str v) ss.

(** [v in {s1, ..., sk}] for string literals: the lookup hashes [v] first. *)
Definition in_str_set (v : value) (ss : list string) : M bool :=
  if hashable v then ret (in_str_tuple v ss) else raise TypeError.

(** [v in range(lo, hi)]: an integer is compared with the bounds, [True] and
    [False] as 1 and 0; any other value equals no element of the range. *)
Definition in_range (v : value) (lo hi : Z) : bool :=
  match v with
  | VInt n => (lo <=? n) && (n <? hi)
  | VBool b => (lo <=? Z.b2z b) && (Z.b2z b <? hi)
  | _ => false
  end.

(** [mapping[v]] for a key [v] that is [in mapping.keys()], and [None] for
    one that is not; the test hashes [v], as a dictionary view does. *)
Definition find_key (mapping v : value) : M (option value) :=
  fun h =>
    match mapping with
    | VRef l =>
        match h !! l with
        | Some (ODict m) =>
            if hashable v then
              (h, Ret (match v with VStr s => m !! s | _ => None end))
            else (h, Raise TypeError)
        | _ => (h, Raise AttributeError)
        end
    | _ => (h, Raise AttributeError)
    end.

(** ** Module constants *)

Definition is_digit (c : ascii) : bool :=
  (48 <=? nat_of_ascii c)%nat && (nat_of_ascii c <=? 57)%nat.

Definition newline : ascii := ascii_of_nat 10.

(** [s] without its last character, when that is a newline. *)
Fixpoint chomp (s : string) : option string :=
  match s with
  | EmptyString => None
  | String c EmptyString =>
      if Ascii.eqb c newline then Some EmptyString else None
  | String c s' => String c <$> chomp s'
  end.

(** The language of [(auto|[+-][\d]+)]. *)
Definition autobadge_word (s : string) : bool :=
  String.eqb s "auto" ||
  match s with
  | String c ds =>
      (Ascii.eqb c "+" || Ascii.eqb c "-") &&
      negb (String.eqb ds "") &&
      forallb is_digit (list_ascii_of_string ds)
  | EmptyString => false
  end.

(** [VALID_AUTOBADGE.match(s)] for [^(auto|[+-][\d]+)$]: the [$] also
    matches just before a newline that ends the string. *)
Definition VALID_AUTOBADGE (s : string) : bool :=
  autobadge_word s ||
  match chomp s with Some s' => autobadge_word s' | None => false end.

Definition VALID_ANDROID_CATEGORIES : list string :=
  ["alarm"; "call"; "email"; "err"; "event"; "msg"; "promo";
   "recommendation"; "service"; "social"; "status"; "sys"; "transport"].

Definition is_lower_hex (c : ascii) : bool :=
  is_digit c || ((97 <=? nat_of_ascii c)%nat && (nat_of_ascii c <=? 102)%nat).

(** The language of [#[0-9a-f]{6}]. *)
Definition icon_color_word (s : string) : bool :=
  match s with
  | String c ds =>
      Ascii.eqb c "#" &&
      (String.length ds =? 6)%nat &&
      forallb is_lower_hex (list_ascii_of_string ds)
  | EmptyString => false
  end.

(** [VALID_ICON_COLOR.match(s)] for [^#[0-9a-f]{6}$], with the same [$]. *)
Definition VALID_ICON_COLOR (s : string) : bool :=
  icon_color_word s ||
  match chomp s with Some s' => icon_color_word s' | None => false end.

Definition str_of (v : value) : string :=
  match v with VStr s => s | _ => "" end.

(** ** The builders, in the order of the source *)

Definition notification
    (alert ios android amazon web wns actions interactive in_app
     open_platform : value) : M value :=
  payload <- new_dict ;;
  when (is_not_none alert) (setitem payload "alert" alert) ;;;
  when (is_not_none actions) (setitem payload "actions" actions) ;;;
  when (is_not_none ios) (setitem payload "ios" ios) ;;;
  when (is_not_none android) (setitem payload "android" android) ;;;
  when (is_not_none amazon) (setitem payload "amazon" amazon) ;;;
  when (is_not_none web) (setitem payload "web" web) ;;;
  when (is_not_none wns) (setitem payload "wns" wns) ;;;
  when (is_not_none interactive) (setitem payload "interactive" interactive) ;;;
  when (is_not_none in_app) (setitem payload "in_app" in_app) ;;;
  when (is_not_none open_platform) (
    kvs <- items open_platform ;;
    for_each kvs (fun kv =>
      setitem payload (String.append "open::" kv.1) kv.2)) ;;;
  raise_unless (fun h => truthy h payload) ValueError ;;;
  ret payload.

Definition ios
    (alert badge sound content_available extra expiry interactive category
     title mutable_content subtitle media_attachment priority
     collapse_id : value) : M value :=
  payload <- new_dict ;;
  when (is_not_none alert) (
    raise_unless (fun h => isinstance_any h alert [TStr; TDict]) ValueError ;;;
    setitem payload "alert" alert) ;;;
  when (is_not_none badge) (
    raise_unless (fun h => isinstance_any h badge [TStr; TInt]) ValueError ;;;
    raise_if (fun h => isinstance h badge TStr &&
                       negb (VALID_AUTOBADGE (str_of badge))) ValueError ;;;
    setitem payload "badge" badge) ;;;
  when (is_not_none sound) (setitem payload "sound" sound) ;;;
  flag <- read (fun h => truthy h content_available) ;;
  when flag (setitem payload "content-available" (VInt 1)) ;;;
  when (is_not_none extra) (setitem payload "extra" extra) ;;;
  when (is_not_none expiry) (
    raise_unless (fun h => isinstance_any h expiry [TStr; TInt]) ValueError ;;;
    setitem payload "expiry" expiry) ;;;
  when (is_not_none interactive) (setitem payload "interactive" interactive) ;;;
  when (is_not_none category) (
    raise_unless (fun h => isinstance h category TStr) ValueError ;;;
    setitem payload "category" category) ;;;
  when (is_not_none title) (
    raise_unless (fun h => isinstance h title TStr) ValueError ;;;
    setitem payload "title" title) ;;;
  when (is_not_none mutable_content) (
    setitem payload "mutable_content" mutable_content) ;;;
  when (is_not_none subtitle) (setitem payload "subtitle" subtitle) ;;;
  when (is_not_none media_attachment) (
    setitem payload "media_attachment" media_attachment) ;;;
  when (is_not_none priority) (
    ok <- in_int_set priority [10; 5] ;;
    when (negb ok) (raise ValueError) ;;;
    setitem payload "priority" priority) ;;;
  when (is_not_none collapse_id) (
    raise_unless (fun h => isinstance h collapse_id TStr) ValueError ;;;
    setitem payload "collapse_id" collapse_id) ;;;
  ret payload.

Definition android
    (alert collapse_key time_to_live delay_while_idle extra interactive
     local_only wearable delivery_priority style title summary sound priority
     category visibility public_notification notification_tag
     notification_channel icon icon_color : value) : M value :=
  payload <- new_dict ;;
  when (is_not_none alert) (setitem payload "alert" alert) ;;;
  when (is_not_none collapse_key) (
    setitem payload "collapse_key" collapse_key) ;;;
  when (is_not_none time_to_live) (
    setitem payload "time_to_live" time_to_live ;;;
    raise_unless (fun h => isinstance_any h time_to_live [TStr; TInt])
                 ValueError) ;;;
  flag <- read (fun h => truthy h delay_while_idle) ;;
  when flag (setitem payload "delay_while_idle" (VBool true)) ;;;
  when (is_not_none extra) (setitem payload "extra" extra) ;;;
  when (is_not_none interactive) (setitem payload "interactive" interactive) ;;;
  when (is_not_none local_only) (
    raise_unless (fun h => isinstance h local_only TBool) ValueError ;;;
    setitem payload "local_only" local_only) ;;;
  when (is_not_none wearable) (
    raise_unless (fun h => isinstance h wearable TDict) ValueError ;;;
    setitem payload "wearable" wearable) ;;;
  when (is_not_none delivery_priority) (
    ok <- in_str_set delivery_priority ["high"; "normal"] ;;
    when (negb ok) (raise ValueError) ;;;
    setitem payload "delivery_priority" delivery_priority) ;;;
  when (is_not_none style) (setitem payload "style" style) ;;;
  when (is_not_none title) (setitem payload "title" title) ;;;
  when (is_not_none summary) (setitem payload "summary" summary) ;;;
  when (is_not_none sound) (setitem payload "sound" sound) ;;;
  when (is_not_none priority) (
    raise_unless (fun _ => in_range priority (-2) 3) ValueError ;;;
    setitem payload "priority" priority) ;;;
  when (is_not_none category) (
    raise_unless (fun _ => in_str_tuple category VALID_ANDROID_CATEGORIES)
                 ValueError ;;;
    setitem payload "category" category) ;;;
  when (is_not_none visibility) (
    raise_unless (fun _ => in_range visibility (-1) 2) ValueError ;;;
    setitem payload "visibility" visibility) ;;;
  when (is_not_none public_notification) (
    setitem payload "public_notification" public_notification) ;;;
  when (is_not_none notification_tag) (
    setitem payload "notification_tag" notification_tag) ;;;
  when (is_not_none notification_channel) (
    setitem payload "notification_channel" notification_channel) ;;;
  when (is_not_none icon) (setitem payload "icon" icon) ;;;
  when (is_not_none icon_color) (
    raise_if (fun h => isinstance h icon_color TStr &&
                       negb (VALID_ICON_COLOR (str_of icon_color)))
             ValueError ;;;
    setitem payload "icon_color" icon_color) ;;;
  ret payload.

Definition amazon
    (alert consolidation_key expires_after extra title summary interactive
     style sound : value) : M value :=
  payload <- new_dict ;;
  when (is_not_none alert) (setitem payload "alert" alert) ;;;
  when (is_not_none consolidation_key) (
    setitem payload "consolidation_key" consolidation_key) ;;;
  when (is_not_none expires_after) (
    setitem payload "expires_after" expires_after ;;;
    raise_unless (fun h => isinstance_any h expires_after [TStr; TInt])
                 ValueError) ;;;
  when (is_not_none extra) (setitem payload "extra" extra) ;;;
  when (is_not_none title) (setitem payload "title" title) ;;;
  when (is_not_none summary) (setitem payload "summary" summary) ;;;
  when (is_not_none interactive) (setitem payload "interactive" interactive) ;;;
  when (is_not_none style) (setitem payload "style" style) ;;;
  when (is_not_none sound) (setitem payload "sound" sound) ;;;
  ret payload.

Definition web
    (alert extra icon title interactive time_to_live
     require_interaction : value) : M value :=
  payload <- new_dict ;;
  when (is_not_none alert) (setitem payload "alert" alert) ;;;
  when (is_not_none extra) (setitem payload "extra" extra) ;;;
  when (is_not_none icon) (
    setitem payload "icon" icon ;;;
    raise_unless (fun h => isinstance h icon TDict) TypeError) ;;;
  when (is_not_none title) (setitem payload "title" title) ;;;
  when (is_not_none interactive) (setitem payload "interactive" interactive) ;;;
  when (is_not_none time_to_live) (
    raise_unless (fun h => isinstance_any h time_to_live [TStr; TInt])
                 ValueError ;;;
    setitem payload "time_to_live" time_to_live) ;;;
  when (is_not_none require_interaction) (
    raise_unless (fun h => isinstance h require_interaction TBool)
                 ValueError ;;;
    setitem payload "require_interaction" require_interaction) ;;;
  ret payload.

Definition open_platform
    (alert title extra summary media_attachment interactive : value)
    : M value :=
  payload <- new_dict ;;
  when (is_not_none alert) (setitem payload "alert" alert) ;;;
  when (is_not_none title) (setitem payload "title" title) ;;;
  when (is_not_none extra) (setitem payload "extra" extra) ;;;
  when (is_not_none summary) (setitem payload "summary" summary) ;;;
  when (is_not_none media_attachment) (
    setitem payload "media_attachment" media_attachment) ;;;
  when (is_not_none interactive) (setitem payload "interactive" interactive) ;;;
  ret payload.

(** [sum(1 for x in xs if x)] *)
Definition count_truthy (h : heap) (xs : list value) : nat :=
  length (List.filter (truthy h) xs).

Definition wns_payload (alert toast tile badge : value) : M value :=
  raise_if (fun h => negb (count_truthy h [alert; toast; tile; badge] =? 1)%nat)
           ValueError ;;;
  payload <- new_dict ;;
  when (is_not_none alert) (setitem payload "alert" alert) ;;;
  when (is_not_none toast) (setitem payload "toast" toast) ;;;
  when (is_not_none tile) (setitem payload "tile" tile) ;;;
  when (is_not_none badge) (setitem payload "badge" badge) ;;;
  ret payload.

Definition message
    (title body content_type content_encoding extra expiry icons options
     campaigns : value) : M value :=
  payload <- alloc (ODict (dict_of [("title", title); ("body", body)])) ;;
  when (is_not_none content_type) (
    setitem payload "content_type" content_type) ;;;
  when (is_not_none content_encoding) (
    setitem payload "content_encoding" content_encoding) ;;;
  when (is_not_none extra) (setitem payload "extra" extra) ;;;
  when (is_not_none expiry) (
    setitem payload "expiry" expiry ;;;
    raise_unless (fun h => isinstance_any h expiry [TStr; TInt]) ValueError) ;;;
  when (is_not_none icons) (
    raise_unless (fun h => isinstance h icons TDict) TypeError ;;;
    setitem payload "icons" icons) ;;;
  when (is_not_none options) (
    raise_unless (fun h => isinstance h options TDict) TypeError ;;;
    setitem payload "options" options) ;;;
  when (is_not_none campaigns) (
    raise_unless (fun h => isinstance h campaigns TDict) TypeError ;;;
    setitem payload "campaigns" campaigns) ;;;
  ret payload.

Definition in_app
    (alert display_type expiry display actions interactive extra : value)
    : M value :=
  payload <- new_dict ;;
  setitem payload "alert" alert ;;;
  setitem payload "display_type" display_type ;;;
  when (is_not_none expiry) (setitem payload "expiry" expiry) ;;;
  when (is_not_none display) (setitem payload "display" display) ;;;
  when (is_not_none actions) (setitem payload "actions" actions) ;;;
  when (is_not_none interactive) (setitem payload "interactive" interactive) ;;;
  when (is_not_none extra) (setitem extra "extra" extra) ;;;
  ret payload.

(** [device_types] takes any number of positional arguments; they arrive
    as one sequence [types].  The message of the error is built from the
    tag, with [%], before the error is raised. *)
Definition device_types (types : list value) : M value :=
  if (length types =? 1)%nat && eq_str (hd VNone types) "all" then
    ret (VStr "all")
  else
    for_each types (fun t =>
      let is_open :=
        fun h => isinstance h t TStr && String.prefix "open::" (str_of t) in
      bad <- read (fun h =>
               negb (in_str_tuple t ["ios"; "android"; "amazon"; "wns"; "web"])
               && negb (is_open h)) ;;
      when bad (format_s t ;;; raise ValueError)) ;;;
    new_list types.

Definition options (expiry : value) : M value :=
  payload <- new_dict ;;
  when (is_not_none expiry) (setitem payload "expiry" expiry) ;;;
  raise_unless (fun h => isinstance_any h expiry [TStr; TInt]) ValueError ;;;
  ret payload.

Definition campaigns (categories : value) : M value :=
  payload <- new_dict ;;
  when (is_not_none categories) (
    raise_unless (fun h => isinstance h categories TSequence) TypeError ;;;
    is_list <- read (fun h => isinstance h categories TList) ;;
    when is_list (
      n <- len categories ;;
      raise_if (fun h => negb (truthy h categories) || (10 <? n)%nat)
               ValueError) ;;;
    is_str <- read (fun h => isinstance h categories TStr) ;;
    categories <- (if is_str then new_list [categories] else ret categories) ;;
    cs <- elements_of categories ;;
    for_each cs (fun c =>
      is_str <- read (fun h => isinstance h c TStr) ;;
      when (negb is_str) (format_s c ;;; raise ValueError) ;;;
      n <- len c ;;
      when ((n =? 0)%nat || (64 <? n)%nat)
           (format_s c ;;; raise ValueError)) ;;;
    out <- new_list cs ;;
    setitem payload "categories" out) ;;;
  ret payload.

Definition actions (add_tag remove_tag open_ share app_defined : value)
    : M value :=
  payload <- new_dict ;;
  when (is_not_none add_tag) (
    raise_unless (fun h => isinstance h add_tag TSequence) TypeError ;;;
    raise_if (fun h => isinstance h add_tag TList && negb (truthy h add_tag))
             ValueError ;;;
    setitem payload "add_tag" add_tag) ;;;
  when (is_not_none remove_tag) (
    raise_unless (fun h => isinstance h remove_tag TSequence) TypeError ;;;
    raise_if (fun h => isinstance h remove_tag TList &&
                       negb (truthy h remove_tag))
             ValueError ;;;
    setitem payload "remove_tag" remove_tag) ;;;
  when (is_not_none open_) (
    raise_unless (fun h => isinstance h open_ TDict) TypeError ;;;
    setitem payload "open" open_) ;;;
  when (is_not_none share) (
    raise_unless (fun h => isinstance h share TStr) TypeError ;;;
    setitem payload "share" share) ;;;
  when (is_not_none app_defined) (
    raise_unless (fun h => isinstance h app_defined TDict) TypeError ;;;
    setitem payload "app_defined" app_defined) ;;;
  ret payload.

Definition interactive (type button_actions : value) : M value :=
  payload <- new_dict ;;
  (if is_not_none type then
     setitem payload "type" type ;;;
     when (is_not_none button_actions) (
       raise_unless (fun h => isinstance h button_actions TDict) TypeError ;;;
       setitem payload "button_actions" button_actions)
   else raise AttributeError) ;;;
  ret payload.

Definition wearable (background_image extra_pages interactive : value)
    : M value :=
  payload <- alloc (ODict (dict_of
    [("background_image", background_image); ("extra_pages", extra_pages);
     ("interactive", interactive)])) ;;
  drop_none payload.

Definition public_notification (title alert summary : value) : M value :=
  payload <- alloc (ODict (dict_of
    [("title", title); ("alert", alert); ("summary", summary)])) ;;
  drop_none payload.

(** The membership test and the indexing of [mapping] are one lookup here;
    [keys()] is the view of Python 3, whose test hashes [style_type]. *)
Definition style (style_type content title summary : value) : M value :=
  mapping <- alloc (ODict (dict_of
    [("big_text", VStr "big_text"); ("big_picture", VStr "big_picture");
     ("inbox", VStr "lines")])) ;;
  key <- find_key mapping style_type ;;
  match key with
  | None => raise ValueError
  | Some key =>
      payload <- alloc (ODict (dict_of
        [("type", style_type); (str_of key, content);
         ("title", title); ("summary", summary)])) ;;
      drop_none payload
  end.

Definition media_attachment (url content options : value) : M value :=
  payload <- alloc (ODict (dict_of
    [("url", url); ("content", content); ("options", options)])) ;;
  drop_none payload.

(** The name [options] in the body of [content] is no parameter of it: it is
    the module-level function [options], a function object. *)
Definition content (title subtitle body : value) : M value :=
  payload <- alloc (ODict (dict_of
    [("title", title); ("subtitle", subtitle);
     ("options", VFun "options")])) ;;
  drop_none payload.

Definition crop (x y width height : value) : M value :=
  payload <- alloc (ODict (dict_of
    [("x", x); ("y", y); ("width", width); ("height", height)])) ;;
  drop_none payload.

(** ** Looking into the heap *)

(** The dictionary stored at a location. *)
Definition dict_at (h : heap) (l : loc) : option (gmap string value) :=
  match h !! l with Some (ODict d) => Some d | _ => None end.

(** The list stored at a location. *)
Definition list_at (h : heap) (l : loc) : option (list value) :=
  match h !! l with Some (OList xs) => Some xs | _ => None end.

(** ** Vocabulary of the statements *)

(** [if v is not None: payload[k] = v], as a function on the payload. *)
Definition put (k : string) (v : value) (d : gmap string value)
    : gmap string value :=
  if is_not_none v then <[k := v]> d else d.

(** The test of the loop body: the tag is one of the five platform names or
    a string that starts with [open::]. *)
Definition accepted_type (t : value) : bool :=
  in_str_tuple t ["ios"; "android"; "amazon"; "wns"; "web"] ||
  match t with VStr s => String.prefix "open::" s | _ => false end.

(** A category that passes the loop of [campaigns]: a string whose length is
    neither zero nor above 64. *)
Definition good_category (c : value) : bool :=
  match c with
  | VStr s => negb ((String.length s =? 0)%nat || (64 <? String.length s)%nat)
  | _ => false
  end.

(** The error of a loop that stops at the first element that fails [test]:
    its message is built from that element, and a tuple that is not the
    one argument of the format makes that a [TypeError]. *)
Definition first_error (test : value -> bool) (xs : list value) : exn :=
  match List.find (fun x => negb (test x)) xs with
  | Some x => if one_argument x then ValueError else TypeError
  | None => ValueError
  end.

(** The categories that the loop of [campaigns] visits when [categories] is
    a sequence: a string stands for the list that holds it. *)
Definition categories_of (h : heap) (v : value) : option (list value) :=
  match v with
  | VStr _ => Some [v]
  | VTuple xs => Some xs
  | VRef l => list_at h l
  | _ => None
  end.

(** The entries that [notification] takes from [open_platform]: none when
    the argument is [None], those of the dictionary when it is one. *)
Definition open_entries (h : heap) (v : value) : option (gmap string value) :=
  match v with
  | VNone => Some ∅
  | VRef l => dict_at h l
  | _ => None
  end.

(** What the comprehension [{k: v for k, v in ... if v is not None}] keeps
    of an entry. *)
Definition kept (o : option value) : option value :=
  match o with
  | Some v => if is_not_none v then Some v else None
  | None => None
  end.

(** The loop over [open_platform.items()], as a function on the payload. *)
Definition put_open (kvs : list (string * value)) (d : gmap string value)
    : gmap string value :=
  fold_left (fun d kv => <[String.append "open::" kv.1 := kv.2]> d) kvs d.

(** The fields that [notification] sets before it looks at
    [open_platform]. *)
Definition notification_fields
    (alert ios android amazon web wns actions interactive in_app : value)
    : gmap string value :=
  put "in_app" in_app (put "interactive" interactive (put "wns" wns
    (put "web" web (put "amazon" amazon (put "android" android
      (put "ios" ios (put "actions" actions (put "alert" alert ∅)))))))).

(** The fields that [in_app] assigns to its payload. *)
Definition in_app_fields
    (alert display_type expiry display actions interactive : value)
    : gmap string value :=
  put "interactive" interactive (put "actions" actions
    (put "display" display (put "expiry" expiry
      (<["display_type" := display_type]> (<["alert" := alert]> ∅))))).

(** Two keys of the payload of [ios]: the keyword spelling is absent and
    the hyphenated key holds [x]. *)
Definition flag_is (x : option value) (d : gmap string value) : Prop :=
  d !! "content_available" = None /\ d !! "content-available" = x.

(** ** Validation and construction, apart *)

(** [v] is a value of the caller: it refers to no location past the heap
    [h]. *)
Definition in_heap (h : heap) (v : value) : bool :=
  match v with
  | VRef l => (l <? length h)%nat
  | _ => true
  end.

(** A test that applies to an argument only when it is supplied. *)
Definition optional (v : value) (c : bool) : bool :=
  negb (is_not_none v) || c.

(** [if flag: payload[k] = c], as a function on the payload. *)
Definition put_flag (k : string) (c : value) (flag : bool)
    (d : gmap string value) : gmap string value :=
  if flag then <[k := c]> d else d.

(** [v == n] for an integer literal [n] and a value that is no boolean. *)
Definition eq_int (v : value) (n : Z) : bool :=
  match v with VInt m => m =? n | _ => false end.

(** [builds h0 ok f a m]: run on the heap [h0] followed by a payload [d],
    [m] returns [a] and leaves the payload [f d] when [ok] holds, and raises
    [ValueError] or [TypeError] when it does not; the objects of [h0] stay
    as they are. *)
Definition builds {A} (h0 : heap) (ok : bool)
    (f : gmap string value -> gmap string value) (a : A) (m : M A) : Prop :=
  forall d,
    if ok then m (h0 ++ [ODict d]) = (h0 ++ [ODict (f d)], Ret a)
    else exists d' e,
        m (h0 ++ [ODict d]) = (h0 ++ [ODict d'], Raise e) /\
        (e = ValueError \/ e = TypeError).

(** The arguments that [ios] accepts. *)
Definition ios_valid (h : heap)
    (alert badge expiry category title priority collapse_id : value) : bool :=
  optional alert (isinstance h alert TStr || isinstance h alert TDict) &&
  optional badge (isinstance h badge TInt ||
                  (isinstance h badge TStr && VALID_AUTOBADGE (str_of badge))) &&
  optional expiry (isinstance h expiry TStr || isinstance h expiry TInt) &&
  optional category (isinstance h category TStr) &&
  optional title (isinstance h title TStr) &&
  optional priority (eq_int priority 5 || eq_int priority 10) &&
  optional collapse_id (isinstance h collapse_id TStr).

(** The document that [ios] returns for them. *)
Definition ios_fields (h : heap)
    (alert badge sound content_available extra expiry interactive category
     title mutable_content subtitle media_attachment priority
     collapse_id : value) : gmap string value :=
  put "collapse_id" collapse_id (put "priority" priority
    (put "media_attachment" media_attachment (put "subtitle" subtitle
      (put "mutable_content" mutable_content (put "title" title
        (put "category" category (put "interactive" interactive
          (put "expiry" expiry (put "extra" extra
            (put_flag "content-available" (VInt 1)
               (truthy h content_available)
               (put "sound" sound (put "badge" badge
                 (put "alert" alert ∅))))))))))))).

(** The arguments that [android] accepts: [priority] from -2 to 2,
    [visibility] from -1 to 1; a colour that is no string is not looked
    at. *)
Definition android_valid (h : heap)
    (time_to_live local_only wearable delivery_priority priority category
     visibility icon_color : value) : bool :=
  optional time_to_live
    (isinstance h time_to_live TStr || isinstance h time_to_live TInt) &&
  optional local_only (isinstance h local_only TBool) &&
  optional wearable (isinstance h wearable TDict) &&
  optional delivery_priority
    (eq_str delivery_priority "high" || eq_str delivery_priority "normal") &&
  optional priority (in_range priority (-2) 3) &&
  optional category (in_str_tuple category VALID_ANDROID_CATEGORIES) &&
  optional visibility (in_range visibility (-1) 2) &&
  optional icon_color
    (negb (isinstance h icon_color TStr) ||
     VALID_ICON_COLOR (str_of icon_color)).

(** The document that [android] returns for them. *)
Definition android_fields (h : heap)
    (alert collapse_key time_to_live delay_while_idle extra interactive
     local_only wearable delivery_priority style title summary sound priority
     category visibility public_notification notification_tag
     notification_channel icon icon_color : value) : gmap string value :=
  put "icon_color" icon_color (put "icon" icon
    (put "notification_channel" notification_channel
      (put "notification_tag" notification_tag
        (put "public_notification" public_notification
          (put "visibility" visibility (put "category" category
            (put "priority" priority (put "sound" sound
              (put "summary" summary (put "title" title (put "style" style
                (put "delivery_priority" delivery_priority
                  (put "wearable" wearable (put "local_only" local_only
                    (put "interactive" interactive (put "extra" extra
                      (put_flag "delay_while_idle" (VBool true)
                         (truthy h delay_while_idle)
                         (put "time_to_live" time_to_live
                           (put "collapse_key" collapse_key
                             (put "alert" alert ∅)))))))))))))))))))).

(** The document that [amazon] returns when [expires_after] is omitted, a
    string or an integer. *)
Definition amazon_fields
    (alert consolidation_key expires_after extra title summary interactive
     style sound : value) : gmap string value :=
  put "sound" sound (put "style" style (put "interactive" interactive
    (put "summary" summary (put "title" title (put "extra" extra
      (put "expires_after" expires_after
        (put "consolidation_key" consolidation_key
          (put "alert" alert ∅)))))))).

(** The arguments that [web] accepts. *)
Definition web_valid (h : heap) (icon time_to_live require_interaction : value)
    : bool :=
  optional icon (isinstance h icon TDict) &&
  optional time_to_live
    (isinstance h time_to_live TStr || isinstance h time_to_live TInt) &&
  optional require_interaction (isinstance h require_interaction TBool).

Definition web_fields
    (alert extra icon title interactive time_to_live
     require_interaction : value) : gmap string value :=
  put "require_interaction" require_interaction
    (put "time_to_live" time_to_live (put "interactive" interactive
      (put "title" title (put "icon" icon (put "extra" extra
        (put "alert" alert ∅)))))).

(** A tag argument of [actions]: a string, a tuple, or a list that is not
    empty. *)
Definition tag_valid (h : heap) (v : value) : bool :=
  isinstance h v TSequence && (negb (isinstance h v TList) || truthy h v).

(** The arguments that [actions] accepts. *)
Definition actions_valid (h : heap)
    (add_tag remove_tag open_ share app_defined : value) : bool :=
  optional add_tag (tag_valid h add_tag) &&
  optional remove_tag (tag_valid h remove_tag) &&
  optional open_ (isinstance h open_ TDict) &&
  optional share (isinstance h share TStr) &&
  optional app_defined (isinstance h app_defined TDict).

(** The document that [actions] returns for them: [open_] goes under the
    key ['open']. *)
Definition actions_fields
    (add_tag remove_tag open_ share app_defined : value)
    : gmap string value :=
  put "app_defined" app_defined (put "share" share (put "open" open_
    (put "remove_tag" remove_tag (put "add_tag" add_tag ∅)))).

(** The arguments that [message] accepts. *)
Definition message_valid (h : heap) (expiry icons options campaigns : value)
    : bool :=
  optional expiry (isinstance h expiry TStr || isinstance h expiry TInt) &&
  optional icons (isinstance h icons TDict) &&
  optional options (isinstance h options TDict) &&
  optional campaigns (isinstance h campaigns TDict).

(** The document that [message] returns for them: [title] and [body] are
    fields whatever their value. *)
Definition message_fields
    (title body content_type content_encoding extra expiry icons options
     campaigns : value) : gmap string value :=
  put "campaigns" campaigns (put "options" options (put "icons" icons
    (put "expiry" expiry (put "extra" extra
      (put "content_encoding" content_encoding
        (put "content_type" content_type
          (<["body" := body]> (<["title" := title]> ∅)))))))).

(** The key under which [style] puts [content], by the name of the style. *)
Definition style_key (s : string) : option string :=
  if String.eqb s "big_text" then Some "big_text"
  else if String.eqb s "big_picture" then Some "big_picture"
  else if String.eqb s "inbox" then Some "lines"
  else None.


(** ** A program logic for the builders *)

(** [hoare P m Q E]: from a heap where [P] holds, [m] ends in a heap where
    [Q] holds of the result, or raises in a heap where [E] holds. *)
Definition hoare {A} (P : heap -> Prop) (m : M A)
    (Q : A -> heap -> Prop) (E : heap -> Prop) : Prop :=
  forall h, P h ->
    match m h with
    | (h', Ret a) => Q a h'
    | (h', Raise _) => E h'
    end.

(** The payload under construction is the one object past the caller's heap
    [h0], and its fields satisfy [I]. *)
Definition payload_has (h0 : heap) (I : gmap string value -> Prop)
    : heap -> Prop :=
  fun h => exists d, h = h0 ++ [ODict d] /\ I d.

(** * Properties *)

(** ** Running the monad *)

Section Monad.
Context {A B : Type}.

Lemma bind_ret_run (m : M A) (k : A -> M B) h h' a :
  m h = (h', Ret a) -> bind m k h = k a h'.
Proof. intros E. unfold bind. now rewrite E. Qed.

Lemma bind_raise_run (m : M A) (k : A -> M B) h h' e :
  m h = (h', Raise e) -> bind m k h = (h', Raise e).
Proof. intros E. unfold bind. now rewrite E. Qed.

End Monad.

Lemma bind_assoc {A B C} (m : M A) (k : A -> M B) (k' : B -> M C) h :
  bind (bind m k) k' h = bind m (fun a => bind (k a) k') h.
Proof. unfold bind. destruct (m h) as [h' [a|e]]; reflexivity. Qed.

Lemma raise_unless_true c e h : c h = true -> raise_unless c e h = (h, Ret tt).
Proof. intros E. unfold raise_unless. now rewrite E. Qed.

Lemma raise_unless_false c e h : c h = false -> raise_unless c e h = (h, Raise e).
Proof. intros E. unfold raise_unless. now rewrite E. Qed.

(** Steps of symbolic execution: run the first command of a sequence with an
    equation for it and go on with the rest. *)
Ltac norm := cbn beta; rewrite ?bind_assoc.
Ltac step_by tac := erewrite bind_ret_run by tac; norm.
Ltac step_with E := step_by ltac:(apply E).
Ltac step_refl := rewrite (bind_ret_run _ _ _ _ _ eq_refl); norm.

(** ** The heap under allocation and update *)

Lemma lookup_fresh (h t : heap) (o : obj) : (h ++ o :: t) !! length h = Some o.
Proof. now apply list_lookup_middle. Qed.

Lemma insert_fresh (h t : heap) (o o' : obj) :
  <[length h := o']> (h ++ o :: t) = h ++ o' :: t.
Proof.
  rewrite insert_app_r_alt by lia.
  now replace (length h - length h)%nat with 0%nat by lia.
Qed.

Lemma lookup_old (h t : heap) (l : loc) :
  (l < length h)%nat -> (h ++ t) !! l = h !! l.
Proof. apply lookup_app_l. Qed.

Lemma lookup_second (h : heap) (o1 o2 : obj) t :
  (h ++ o1 :: o2 :: t) !! S (length h) = Some o2.
Proof.
  rewrite (lookup_app_r h) by lia.
  now replace (S (length h) - length h)%nat with 1%nat by lia.
Qed.

Lemma lookup_third (h : heap) (o1 o2 o3 : obj) t :
  (h ++ o1 :: o2 :: o3 :: t) !! S (S (length h)) = Some o3.
Proof.
  rewrite (lookup_app_r h) by lia.
  now replace (S (S (length h)) - length h)%nat with 2%nat by lia.
Qed.

Lemma length_fresh (h : heap) (o : obj) : length (h ++ [o]) = S (length h).
Proof. rewrite length_app. cbn. lia. Qed.

Lemma dict_at_old (h t : heap) (l : loc) d :
  dict_at h l = Some d -> dict_at (h ++ t) l = Some d.
Proof.
  unfold dict_at. destruct (h !! l) as [o|] eqn:E; [|discriminate].
  rewrite lookup_old by (apply lookup_lt_is_Some; eauto).
  now rewrite E.
Qed.

Lemma dict_at_fresh (h t : heap) d : dict_at (h ++ ODict d :: t) (length h) = Some d.
Proof. unfold dict_at. now rewrite lookup_fresh. Qed.

(** An assignment to a key of the payload under construction, which sits at
    the first location past the caller's heap. *)
Lemma setitem_fresh (h t : heap) d k v :
  setitem (VRef (length h)) k v (h ++ ODict d :: t) =
  (h ++ ODict (<[k := v]> d) :: t, Ret tt).
Proof. unfold setitem. now rewrite lookup_fresh, insert_fresh. Qed.

Lemma setitem_old h t l m k v :
  dict_at h l = Some m ->
  setitem (VRef l) k v (h ++ t) =
  (<[l := ODict (<[k := v]> m)]> h ++ t, Ret tt).
Proof.
  intros E. unfold dict_at in E.
  destruct (h !! l) as [[m'|]|] eqn:L; simplify_eq.
  assert (Lt : (l < length h)%nat) by (now apply lookup_lt_Some in L).
  unfold setitem. rewrite lookup_old, L by exact Lt.
  now rewrite insert_app_l.
Qed.

Lemma items_old h t l m :
  dict_at h l = Some m -> items (VRef l) (h ++ t) = (h ++ t, Ret (map_to_list m)).
Proof.
  intros E. apply (dict_at_old _ t) in E. unfold dict_at in E. unfold items.
  destruct ((h ++ t) !! l) as [[|]|]; now simplify_eq.
Qed.

Lemma truthy_fresh_dict (h : heap) d :
  truthy (h ++ [ODict d]) (VRef (length h)) = negb (bool_decide (d = ∅)).
Proof. unfold truthy. now rewrite lookup_fresh. Qed.

Lemma isinstance_list h l xs t :
  h !! l = Some (OList xs) ->
  isinstance h (VRef l) t =
  match t with TList | TSequence => true | _ => false end.
Proof. intros E. destruct t; cbn; now rewrite ?E. Qed.

Lemma len_list_run h l xs :
  h !! l = Some (OList xs) -> len (VRef l) h = (h, Ret (length xs)).
Proof. intros E. unfold len. now rewrite E. Qed.

Lemma elements_of_list_run h l xs :
  h !! l = Some (OList xs) -> elements_of (VRef l) h = (h, Ret xs).
Proof. intros E. unfold elements_of. now rewrite E. Qed.

Lemma truthy_list h l xs :
  h !! l = Some (OList xs) -> truthy h (VRef l) = negb (length xs =? 0)%nat.
Proof. intros E. unfold truthy. rewrite E. now destruct xs. Qed.

(** ** Fields that are set when an argument is supplied *)

Lemma when_setitem_fresh (h t : heap) d k v :
  when (is_not_none v) (setitem (VRef (length h)) k v) (h ++ ODict d :: t) =
  (h ++ ODict (put k v d) :: t, Ret tt).
Proof.
  unfold when, put. destruct (is_not_none v); [apply setitem_fresh | reflexivity].
Qed.

Lemma put_lookup_ne k k' v d : k <> k' -> put k v d !! k' = d !! k'.
Proof.
  intros N. unfold put. destruct (is_not_none v); [|reflexivity].
  now apply lookup_insert_ne.
Qed.

Lemma put_empty k v d : put k v d = ∅ <-> v = VNone /\ d = ∅.
Proof.
  unfold put. destruct v; simpl; split; try (intros [? ?]; congruence);
    try (intros E; exfalso; revert E; apply insert_non_empty); auto.
Qed.

(** ** Rules of the program logic *)

Section Hoare.
Context {A B : Type}.
Implicit Types (P E : heap -> Prop).

Lemma hoare_bind P (m : M A) (k : A -> M B) R Q E :
  hoare P m R E -> (forall a, hoare (R a) (k a) Q E) -> hoare P (bind m k) Q E.
Proof.
  intros Hm Hk h Ph. unfold bind. specialize (Hm h Ph).
  destruct (m h) as [h' [a|e]]; [now apply Hk | exact Hm].
Qed.

Lemma hoare_ret P (a : A) (Q : A -> heap -> Prop) E :
  (forall h, P h -> Q a h) -> hoare P (ret a) Q E.
Proof. intros PQ h Ph. now apply PQ. Qed.

Lemma hoare_raise P e (Q : A -> heap -> Prop) E :
  (forall h, P h -> E h) -> hoare P (raise e) Q E.
Proof. intros PE h Ph. now apply PE. Qed.

Lemma hoare_read_const P (f : heap -> A) c E :
  (forall h, f h = c) -> hoare P (read f) (fun a h => P h /\ a = c) E.
Proof. intros F h Ph. split; [exact Ph | apply F]. Qed.

Lemma hoare_assume P (phi : Prop) (m : M A) Q E :
  (phi -> hoare P m Q E) -> hoare (fun h => P h /\ phi) m Q E.
Proof. intros H h [Ph F]. now apply H. Qed.

End Hoare.

Section HoareUnit.
Implicit Types (P E : heap -> Prop).

Lemma hoare_when P c (body : M unit) E :
  hoare P body (fun _ => P) E -> hoare P (when c body) (fun _ => P) E.
Proof. intros H. destruct c; [exact H | now intros h Ph]. Qed.

Lemma hoare_read_inv {A} P (f : heap -> A) E :
  hoare P (read f) (fun _ => P) E.
Proof. now intros h Ph. Qed.

Lemma hoare_raise_unless P c e E :
  (forall h, P h -> E h) -> hoare P (raise_unless c e) (fun _ => P) E.
Proof.
  intros PE h Ph. unfold raise_unless. destruct (c h); [exact Ph | now apply PE].
Qed.

Lemma hoare_raise_if P c e E :
  (forall h, P h -> E h) -> hoare P (raise_if c e) (fun _ => P) E.
Proof.
  intros PE h Ph. unfold raise_if. destruct (c h); [now apply PE | exact Ph].
Qed.

Lemma hoare_in_int_set P v ns E :
  (forall h, P h -> E h) -> hoare P (in_int_set v ns) (fun _ => P) E.
Proof.
  intros PE h Ph. unfold in_int_set.
  destruct (hashable v); [exact Ph | now apply PE].
Qed.

Lemma hoare_setitem h0 (I I' : gmap string value -> Prop) k v E :
  (forall d, I d -> I' (<[k := v]> d)) ->
  hoare (payload_has h0 I) (setitem (VRef (length h0)) k v)
        (fun _ => payload_has h0 I') E.
Proof.
  intros Step h (d & -> & Id). rewrite setitem_fresh.
  exists (<[k := v]> d). split; [reflexivity | now apply Step].
Qed.

End HoareUnit.

Lemma payload_has_any h0 I h : payload_has h0 I h -> payload_has h0 (fun _ => True) h.
Proof. intros (d & -> & _). now exists d. Qed.

(** Goes through a sequence of blocks of the shape
    [if x is not None: checks; payload[k] = x], with [stable] to show that an
    assignment keeps the invariant of the payload. *)
Ltac hoare_block stable :=
  repeat first
    [ apply hoare_when
    | apply hoare_read_inv
    | apply hoare_raise_unless; apply payload_has_any
    | apply hoare_raise_if; apply payload_has_any
    | apply hoare_in_int_set; apply payload_has_any
    | apply hoare_raise; apply payload_has_any
    | apply hoare_setitem; intros ? ?; stable
    | eapply hoare_bind; [|intros ?; cbn beta] ].

(** ** Dictionary displays and the comprehension that drops [None] *)

Lemma fold_insert_other (kvs : list (string * value))
    (d : gmap string value) k :
  k ∉ kvs.*1 ->
  fold_left (fun m kv => <[kv.1 := kv.2]> m) kvs d !! k = d !! k.
Proof.
  revert d. induction kvs as [|[k0 v0] kvs IH]; intros d Out; [reflexivity|].
  cbn [fold_left]. cbn in Out. apply not_elem_of_cons in Out as [Ne Out].
  rewrite IH by exact Out. now apply lookup_insert_ne.
Qed.

Lemma fold_insert_entry (kvs : list (string * value))
    (d : gmap string value) k v :
  NoDup kvs.*1 -> (k, v) ∈ kvs ->
  fold_left (fun m kv => <[kv.1 := kv.2]> m) kvs d !! k = Some v.
Proof.
  revert d. induction kvs as [|[k0 v0] kvs IH]; intros d ND In.
  - now apply not_elem_of_nil in In.
  - cbn in ND. apply NoDup_cons in ND as [Fresh ND]. cbn [fold_left].
    apply elem_of_cons in In as [E|In].
    + simplify_eq. rewrite fold_insert_other by exact Fresh.
      apply lookup_insert_eq.
    + now apply IH.
Qed.

Lemma filter_keys_NoDup (p : string * value -> bool) kvs :
  NoDup kvs.*1 -> NoDup (List.filter p kvs).*1.
Proof.
  induction kvs as [|kv kvs IH]; intros ND; [constructor|].
  cbn in ND. apply NoDup_cons in ND as [Fresh ND]. cbn [List.filter].
  destruct (p kv); [|now apply IH].
  cbn. apply NoDup_cons. split; [|now apply IH].
  intros In. apply Fresh. apply list_elem_of_fmap in In as (kv' & -> & In).
  apply list_elem_of_fmap. exists kv'. split; [reflexivity|].
  apply list_elem_of_In in In. apply filter_In in In as [In _].
  now apply list_elem_of_In.
Qed.

Lemma drop_none_lookup (m : gmap string value) k :
  dict_of (List.filter (fun kv => is_not_none kv.2) (map_to_list m)) !! k =
  kept (m !! k).
Proof.
  unfold dict_of. destruct (m !! k) as [v|] eqn:E; cbn [kept].
  - destruct (is_not_none v) eqn:Nn.
    + apply fold_insert_entry.
      * apply filter_keys_NoDup, NoDup_fst_map_to_list.
      * apply list_elem_of_In, filter_In. split; [|exact Nn].
        now apply list_elem_of_In, elem_of_map_to_list.
    + rewrite fold_insert_other; [apply lookup_empty|].
      intros In. apply list_elem_of_fmap in In as ([k' v'] & -> & In).
      apply list_elem_of_In, filter_In in In as [In Nn'].
      apply list_elem_of_In, elem_of_map_to_list in In. cbn in *. congruence.
  - rewrite fold_insert_other; [apply lookup_empty|].
    intros In. apply list_elem_of_fmap in In as ([k' v'] & -> & In).
    apply list_elem_of_In, filter_In in In as [In _].
    apply list_elem_of_In, elem_of_map_to_list in In. cbn in *. congruence.
Qed.

Lemma drop_none_run h m :
  drop_none (VRef (length h)) (h ++ [ODict m]) =
  (h ++ [ODict m;
         ODict (dict_of (List.filter (fun kv => is_not_none kv.2)
                                     (map_to_list m)))],
   Ret (VRef (S (length h)))).
Proof.
  unfold drop_none, bind, items. rewrite lookup_fresh. unfold alloc.
  now rewrite <- app_assoc, length_fresh.
Qed.

(** A builder of the shape [payload = {...}; return {comprehension}]: it
    allocates the display and the document, and the document has the fields
    of the display whose value is not [None]. *)
Lemma display_builder_run h kvs :
  exists d,
    (payload <- alloc (ODict (dict_of kvs)) ;; drop_none payload) h =
      (h ++ [ODict (dict_of kvs); ODict d], Ret (VRef (S (length h)))) /\
    forall k, d !! k = kept (dict_of kvs !! k).
Proof.
  eexists. split.
  - unfold alloc at 1. step_refl. apply drop_none_run.
  - apply drop_none_lookup.
Qed.

(** ** notification *)

Lemma open_loop h d kvs :
  for_each kvs (fun kv =>
    setitem (VRef (length h)) (String.append "open::" kv.1) kv.2)
    (h ++ [ODict d]) =
  (h ++ [ODict (put_open kvs d)], Ret tt).
Proof.
  revert d. induction kvs as [|kv kvs IH]; intros d; [reflexivity|].
  cbn [for_each]. step_with setitem_fresh. apply IH.
Qed.

Lemma put_open_other kvs d k :
  (forall name, name ∈ kvs.*1 -> String.append "open::" name <> k) ->
  put_open kvs d !! k = d !! k.
Proof.
  revert d. induction kvs as [|[k0 v0] kvs IH]; intros d Other; [reflexivity|].
  cbn [put_open fold_left]. fold (put_open kvs). rewrite IH.
  - apply lookup_insert_ne. apply Other. cbn. left.
  - intros name In. apply Other. cbn. now right.
Qed.

Lemma put_open_entry kvs d name v :
  NoDup kvs.*1 -> (name, v) ∈ kvs ->
  put_open kvs d !! String.append "open::" name = Some v.
Proof.
  revert d. induction kvs as [|[k0 v0] kvs IH]; intros d ND In.
  - now apply not_elem_of_nil in In.
  - cbn in ND. apply NoDup_cons in ND as [Fresh ND].
    cbn [put_open fold_left]. fold (put_open kvs).
    apply elem_of_cons in In as [E|In].
    + simplify_eq. rewrite put_open_other; [apply lookup_insert_eq|].
      intros name' In' E. cbn in E. simplify_eq. contradiction.
    + now apply IH.
Qed.

Lemma put_open_empty kvs d : put_open kvs d = ∅ <-> kvs = [] /\ d = ∅.
Proof.
  revert d. induction kvs as [|kv kvs IH]; intros d.
  - cbn. tauto.
  - cbn [put_open fold_left]. fold (put_open kvs). rewrite IH.
    split; [intros [_ E] | intros [E _]; discriminate].
    now apply insert_non_empty in E.
Qed.

Lemma notification_run h alert ios android amazon web wns actions interactive
    in_app op m :
  open_entries h op = Some m ->
  notification alert ios android amazon web wns actions interactive in_app op h =
  let d := put_open (map_to_list m)
             (notification_fields alert ios android amazon web wns actions
                interactive in_app) in
  (h ++ [ODict d],
   if bool_decide (d = ∅) then Raise ValueError else Ret (VRef (length h))).
Proof.
  intros Op. unfold notification, new_dict. step_refl.
  do 9 step_with when_setitem_fresh.
  fold (notification_fields alert ios android amazon web wns actions
          interactive in_app).
  set (d0 := notification_fields _ _ _ _ _ _ _ _ _).
  assert (Loop :
    when (is_not_none op)
      (kvs <- items op ;;
       for_each kvs (fun kv =>
         setitem (VRef (length h)) (String.append "open::" kv.1) kv.2))
      (h ++ [ODict d0]) =
    (h ++ [ODict (put_open (map_to_list m) d0)], Ret tt)).
  { destruct op; try discriminate; cbn [open_entries] in Op; simplify_eq.
    - now rewrite map_to_list_empty.
    - cbn [is_not_none when].
      erewrite bind_ret_run by (apply items_old; exact Op). apply open_loop. }
  step_with Loop.
  unfold bind, raise_unless. rewrite truthy_fresh_dict. cbn zeta.
  now destruct (bool_decide _).
Qed.

Lemma notification_fields_empty alert ios android amazon web wns actions
    interactive in_app :
  notification_fields alert ios android amazon web wns actions interactive
    in_app = ∅ <->
  alert = VNone /\ ios = VNone /\ android = VNone /\ amazon = VNone /\
  web = VNone /\ wns = VNone /\ actions = VNone /\ interactive = VNone /\
  in_app = VNone.
Proof.
  unfold notification_fields. rewrite !put_empty. tauto.
Qed.

(** C7.  [notification()] with every argument omitted raises [ValueError].
    In general, with [open_platform] omitted or a dictionary with entries
    [m], the call builds one new document [d] and raises [ValueError]
    exactly when [d] is empty; otherwise it returns [d], which then has a
    field.  Every entry [name: v] of [open_platform] is in [d] under the key
    ['open::' + name], and [d] is empty only when every other argument is
    omitted and [open_platform] brings no entry. *)
Theorem notification_raises_iff_empty :
  (forall h,
      notification VNone VNone VNone VNone VNone VNone VNone VNone VNone VNone h
      = (h ++ [ODict ∅], Raise ValueError)) /\
  (forall h alert ios android amazon web wns actions interactive in_app op m,
      open_entries h op = Some m ->
      let r := notification alert ios android amazon web wns actions
                 interactive in_app op h in
      exists d,
        r.1 = h ++ [ODict d] /\
        (r.2 = Raise ValueError <-> d = ∅) /\
        (d <> ∅ -> r.2 = Ret (VRef (length h))) /\
        (forall name v,
            m !! name = Some v -> d !! String.append "open::" name = Some v) /\
        (d = ∅ <->
         alert = VNone /\ ios = VNone /\ android = VNone /\ amazon = VNone /\
         web = VNone /\ wns = VNone /\ actions = VNone /\
         interactive = VNone /\ in_app = VNone /\ m = ∅)).
Proof.
  split.
  - intros h. now rewrite (notification_run _ _ _ _ _ _ _ _ _ _ _ ∅).
  - intros h alert ios android amazon web wns actions interactive in_app op m
      Op r. subst r. rewrite (notification_run _ _ _ _ _ _ _ _ _ _ _ _ Op).
    cbn zeta. eexists. split; [reflexivity|]. cbn [fst snd].
    split; [|split; [|split]].
    + case_bool_decide; split; congruence.
    + intros NE. now rewrite bool_decide_eq_false_2.
    + intros name v In. apply put_open_entry.
      * apply NoDup_fst_map_to_list.
      * now apply elem_of_map_to_list.
    + rewrite put_open_empty, map_to_list_empty_iff, notification_fields_empty.
      tauto.
Qed.

Lemma notification_raises_iff_empty_witness :
  exists d,
    notification (VStr "Hello") VNone VNone VNone VNone VNone VNone VNone VNone
                 (VRef 0%nat) [ODict {[ "sms" := VStr "hi" ]}] =
      ([ODict {[ "sms" := VStr "hi" ]}; ODict d], Ret (VRef 1%nat)) /\
    d !! "open::sms" = Some (VStr "hi").
Proof.
  destruct (proj2 notification_raises_iff_empty
              [ODict {[ "sms" := VStr "hi" ]}] (VStr "Hello") VNone VNone VNone
              VNone VNone VNone VNone VNone (VRef 0%nat)
              {[ "sms" := VStr "hi" ]} eq_refl)
    as (d & Heap & _ & Returns & Open & Empty).
  exists d. split.
  - rewrite (surjective_pairing (notification _ _ _ _ _ _ _ _ _ _ _)).
    rewrite Heap, Returns; [reflexivity|].
    intros E. apply Empty in E as [E _]. discriminate E.
  - apply (Open "sms"). reflexivity.
Defined.

(** ** ios *)

Lemma flag_is_insert x k v d :
  k <> "content_available" -> k <> "content-available" ->
  flag_is x d -> flag_is x (<[k := v]> d).
Proof.
  intros N1 N2 [H1 H2]. split; now rewrite lookup_insert_ne.
Qed.

Lemma ios_body h0 b alert badge sound extra expiry interactive category title
    mutable_content subtitle media_attachment priority collapse_id h' v :
  ios alert badge sound (VBool b) extra expiry interactive category title
      mutable_content subtitle media_attachment priority collapse_id h0
  = (h', Ret v) ->
  v = VRef (length h0) /\
  payload_has h0 (flag_is (if b then Some (VInt 1) else None)) h'.
Proof.
  unfold ios, new_dict. rewrite (bind_ret_run _ _ _ _ _ eq_refl).
  set (x := if b then Some (VInt 1) else None).
  set (body := bind _ _). intros Run.
  assert (H : hoare (payload_has h0 (flag_is None)) body
                (fun v h => v = VRef (length h0) /\ payload_has h0 (flag_is x) h)
                (payload_has h0 (fun _ => True))).
  { subst body.
    do 3 (eapply hoare_bind;
          [hoare_block ltac:(now apply flag_is_insert)|intros ?; cbn beta]).
    eapply hoare_bind;
      [apply (hoare_read_const _ _ b); reflexivity|intros flag; cbn beta].
    apply hoare_assume. intros ->.
    eapply (hoare_bind _ _ _ (fun _ => payload_has h0 (flag_is x))).
    { subst x. destruct b; cbn [when].
      - apply hoare_setitem. intros d [H1 H2]. split.
        + now rewrite lookup_insert_ne.
        + apply lookup_insert_eq.
      - now apply hoare_ret. }
    intros ?; cbn beta.
    hoare_block ltac:(now apply flag_is_insert).
    apply hoare_ret. now intros h Ph. }
  specialize (H (h0 ++ [ODict ∅])). rewrite Run in H. apply H.
  exists ∅. split; [reflexivity|]. split; apply lookup_empty.
Qed.

(** C8.  Whenever [ios] returns, with [content_available] a boolean: the
    result is the new document; it has no key ['content_available']; and the
    key ['content-available'] holds the integer 1 when the flag is [True]
    and is absent when the flag is [False], the default. *)
Theorem ios_content_available (h : heap) (b : bool)
    (alert badge sound extra expiry interactive category title
     mutable_content subtitle media_attachment priority collapse_id : value)
    (h' : heap) (v : value) :
  ios alert badge sound (VBool b) extra expiry interactive category title
      mutable_content subtitle media_attachment priority collapse_id h
  = (h', Ret v) ->
  exists d,
    v = VRef (length h) /\
    dict_at h' (length h) = Some d /\
    d !! "content_available" = None /\
    d !! "content-available" = (if b then Some (VInt 1) else None).
Proof.
  intros Run. apply ios_body in Run as (-> & d & -> & Absent & Flag).
  exists d. split; [reflexivity|]. split; [apply dict_at_fresh|]. now split.
Qed.

Lemma ios_content_available_witness :
  exists d,
    VRef 0%nat = VRef 0%nat /\
    dict_at [ODict (<["content-available" := VInt 1]>
                      (<["sound" := VStr "cat.caf"]>
                         (<["alert" := VStr "Hello!"]> ∅)))] 0%nat
      = Some d /\
    d !! "content_available" = None /\
    d !! "content-available" = Some (VInt 1).
Proof.
  apply (ios_content_available [] true (VStr "Hello!") VNone (VStr "cat.caf")
           VNone VNone VNone VNone VNone VNone VNone VNone VNone VNone).
  vm_compute. reflexivity.
Defined.

(** Whatever its arguments, and whether it returns or raises, [ios] leaves
    the caller's heap as it was and adds one object, its payload. *)
Lemma ios_extends_heap h alert badge sound content_available extra expiry
    interactive category title mutable_content subtitle media_attachment
    priority collapse_id :
  exists d,
    (ios alert badge sound content_available extra expiry interactive category
         title mutable_content subtitle media_attachment priority collapse_id
         h).1 = h ++ [ODict d].
Proof.
  unfold ios, new_dict. rewrite (bind_ret_run _ _ _ _ _ eq_refl).
  set (body := bind _ _).
  assert (H : hoare (payload_has h (fun _ => True)) body
                (fun _ => payload_has h (fun _ => True))
                (payload_has h (fun _ => True))).
  { subst body. hoare_block ltac:(exact I). }
  specialize (H (h ++ [ODict ∅])).
  destruct (body (h ++ [ODict ∅])) as [h' [v|e]]; cbn [fst];
    destruct H as (d & -> & _); try (now exists ∅); now exists d.
Qed.

(** ** open_platform *)

(** [open_platform] sets a field for each argument that is supplied, and no
    other. *)
Lemma open_platform_run h alert title extra summary media_attachment
    interactive :
  open_platform alert title extra summary media_attachment interactive h =
  (h ++ [ODict (put "interactive" interactive
                 (put "media_attachment" media_attachment
                   (put "summary" summary (put "extra" extra
                     (put "title" title (put "alert" alert ∅))))))],
   Ret (VRef (length h))).
Proof.
  unfold open_platform, new_dict. step_refl.
  do 6 step_with when_setitem_fresh. reflexivity.
Qed.

(** ** wns_payload *)

(** What [wns_payload] does on every input: the guard counts the arguments
    that are true, the assignments take the arguments that are not [None]. *)
Lemma wns_payload_run h alert toast tile badge :
  wns_payload alert toast tile badge h =
  if (count_truthy h [alert; toast; tile; badge] =? 1)%nat
  then (h ++ [ODict (put "badge" badge (put "tile" tile
                      (put "toast" toast (put "alert" alert ∅))))],
        Ret (VRef (length h)))
  else (h, Raise ValueError).
Proof.
  unfold wns_payload. unfold bind at 1, raise_if at 1.
  destruct (count_truthy h [alert; toast; tile; badge] =? 1)%nat;
    cbn [negb]; [|reflexivity].
  unfold new_dict. step_refl.
  do 4 step_with when_setitem_fresh.
  reflexivity.
Qed.

(** C3, on the code.  [wns_payload(alert='Hello', badge=0)] supplies two of
    the four arguments and returns a document with both fields, and
    [wns_payload(alert='')] supplies exactly one and raises [ValueError]:
    the guard counts the arguments that are true, not those that are
    supplied. *)
Theorem wns_payload_counts_truthy_arguments :
  (forall h, exists d,
      wns_payload (VStr "Hello") VNone VNone (VInt 0) h =
        (h ++ [ODict d], Ret (VRef (length h))) /\
      d !! "alert" = Some (VStr "Hello") /\
      d !! "badge" = Some (VInt 0)) /\
  (forall h, wns_payload (VStr "") VNone VNone VNone h = (h, Raise ValueError)).
Proof.
  split; intros h; rewrite wns_payload_run; cbn; [|reflexivity].
  eexists. split; [reflexivity|]. split; reflexivity.
Qed.

(** When every supplied argument is also true, the guard is the one the
    docstring states: exactly one argument gives a document with exactly that
    field. *)
Lemma wns_payload_single_alert h alert :
  truthy h alert = true ->
  wns_payload alert VNone VNone VNone h =
  (h ++ [ODict {[ "alert" := alert ]}], Ret (VRef (length h))).
Proof.
  intros T. rewrite wns_payload_run. unfold count_truthy. cbn. rewrite T. cbn.
  unfold put. destruct alert; try discriminate; reflexivity.
Qed.

(** ** message *)

(** [message] tests the type of [expiry] inside the [is not None] test, where
    [options] tests it outside: with [expiry] omitted, [message] returns. *)
Lemma message_expiry_omitted h title body :
  message title body VNone VNone VNone VNone VNone VNone VNone h =
  (h ++ [ODict (<["body" := body]> (<["title" := title]> ∅))],
   Ret (VRef (length h))).
Proof. reflexivity. Qed.

(** ** in_app *)

Lemma in_app_fields_no_extra alert display_type expiry display actions
    interactive :
  in_app_fields alert display_type expiry display actions interactive
    !! "extra" = None.
Proof.
  unfold in_app_fields. rewrite !put_lookup_ne by discriminate.
  rewrite !lookup_insert_ne by discriminate. apply lookup_empty.
Qed.

(** [in_app] with a dictionary as [extra]: the assignment goes to the
    dictionary [extra], under its own key ['extra'], not to the payload. *)
Lemma in_app_run_extra h alert display_type expiry display actions interactive
    l m :
  dict_at h l = Some m ->
  in_app alert display_type expiry display actions interactive (VRef l) h =
  (<[l := ODict (<["extra" := VRef l]> m)]> h ++
   [ODict (in_app_fields alert display_type expiry display actions
             interactive)],
   Ret (VRef (length h))).
Proof.
  intros E. unfold in_app, new_dict. step_refl.
  do 2 step_with setitem_fresh. do 4 step_with when_setitem_fresh.
  cbn [is_not_none when].
  erewrite bind_ret_run by (apply setitem_old; exact E).
  reflexivity.
Qed.

(** Without [extra], [in_app] returns a new document: ['alert'] and
    ['display_type'] always, the four optional fields when supplied. *)
Lemma in_app_run_no_extra h alert display_type expiry display actions
    interactive :
  in_app alert display_type expiry display actions interactive VNone h =
  (h ++ [ODict (in_app_fields alert display_type expiry display actions
                  interactive)],
   Ret (VRef (length h))).
Proof.
  unfold in_app, new_dict. step_refl.
  do 2 step_with setitem_fresh. do 4 step_with when_setitem_fresh.
  reflexivity.
Qed.

(** C2, on the code.  [in_app] called with a dictionary as [extra] writes
    into that dictionary: after the call it has a key ['extra'] that refers
    to the dictionary itself, so the caller's argument has changed unless it
    already had that very entry. *)
Theorem in_app_mutates_extra (h : heap)
    (alert display_type expiry display actions interactive : value)
    (l : loc) (m : gmap string value) :
  dict_at h l = Some m ->
  let h' := (in_app alert display_type expiry display actions interactive
                    (VRef l) h).1 in
  dict_at h' l = Some (<["extra" := VRef l]> m) /\
  (m !! "extra" <> Some (VRef l) -> dict_at h' l <> dict_at h l).
Proof.
  intros E h'. subst h'. rewrite (in_app_run_extra _ _ _ _ _ _ _ _ _ E).
  cbn [fst].
  assert (Lt : (l < length h)%nat).
  { unfold dict_at in E. destruct (h !! l) eqn:L; [|discriminate].
    now apply lookup_lt_Some in L. }
  assert (At : dict_at (<[l := ODict (<["extra" := VRef l]> m)]> h ++
                        [ODict (in_app_fields alert display_type expiry display
                                  actions interactive)]) l
               = Some (<["extra" := VRef l]> m)).
  { apply dict_at_old. unfold dict_at.
    now rewrite list_lookup_insert_eq. }
  split; [exact At|].
  intros New. rewrite At, E. intros Same. apply New.
  injection Same as Same. rewrite <- Same. apply lookup_insert_eq.
Qed.

Lemma in_app_mutates_extra_witness :
  dict_at (in_app (VStr "Sale") (VStr "banner") VNone VNone VNone VNone
                  (VRef 0%nat) [ODict {[ "promo" := VStr "yes" ]}]).1 0%nat
    = Some (<["extra" := VRef 0%nat]> {[ "promo" := VStr "yes" ]}) /\
  dict_at (in_app (VStr "Sale") (VStr "banner") VNone VNone VNone VNone
                  (VRef 0%nat) [ODict {[ "promo" := VStr "yes" ]}]).1 0%nat
    <> dict_at [ODict {[ "promo" := VStr "yes" ]}] 0%nat.
Proof.
  destruct (in_app_mutates_extra [ODict {[ "promo" := VStr "yes" ]}]
              (VStr "Sale") (VStr "banner") VNone VNone VNone VNone 0%nat
              {[ "promo" := VStr "yes" ]} eq_refl) as [At Changed].
  split; [exact At|]. apply Changed.
  intros E. vm_compute in E. discriminate E.
Defined.

(** ** device_types *)

Lemma is_open_accepted h t :
  negb (in_str_tuple t ["ios"; "android"; "amazon"; "wns"; "web"]) &&
  negb (isinstance h t TStr && String.prefix "open::" (str_of t)) =
  negb (accepted_type t).
Proof.
  unfold accepted_type. rewrite negb_orb. f_equal. now destruct t.
Qed.

Lemma first_error_here test x xs :
  test x = false ->
  first_error test (x :: xs) = if one_argument x then ValueError else TypeError.
Proof. intros E. unfold first_error. cbn [find]. now rewrite E. Qed.

Lemma first_error_next test x xs :
  test x = true -> first_error test (x :: xs) = first_error test xs.
Proof. intros E. unfold first_error. cbn [find]. now rewrite E. Qed.

Lemma first_error_split test pre x post :
  forallb test pre = true -> test x = false ->
  first_error test (pre ++ x :: post) =
  if one_argument x then ValueError else TypeError.
Proof.
  induction pre as [|y pre IH]; cbn [forallb app]; intros All Bad.
  - now apply first_error_here.
  - apply andb_true_iff in All as [Y All].
    rewrite first_error_next by exact Y. now apply IH.
Qed.

Lemma first_error_value test xs :
  forallb one_argument xs = true -> first_error test xs = ValueError.
Proof.
  intros All. unfold first_error.
  destruct (find _ xs) as [x|] eqn:F; [|reflexivity].
  apply find_some in F as [In _]. rewrite forallb_forall in All.
  now rewrite (All _ In).
Qed.

Lemma device_types_loop h types :
  for_each types (fun t =>
    bad <- read (fun h =>
             negb (in_str_tuple t ["ios"; "android"; "amazon"; "wns"; "web"])
             && negb (isinstance h t TStr &&
                      String.prefix "open::" (str_of t))) ;;
    when bad (format_s t ;;; raise ValueError)) h =
  (h, if forallb accepted_type types then Ret tt
      else Raise (first_error accepted_type types)).
Proof.
  induction types as [|t types IH]; [reflexivity|].
  cbn [for_each forallb]. unfold bind at 1 2, read at 1.
  rewrite is_open_accepted.
  destruct (accepted_type t) eqn:A; cbn [negb andb when].
  - rewrite first_error_next by exact A. apply IH.
  - rewrite first_error_here by exact A. unfold format_s, bind.
    now destruct (one_argument t).
Qed.

Lemma only_all_iff types :
  (length types =? 1)%nat && eq_str (hd VNone types) "all" = true <->
  types = [VStr "all"].
Proof.
  split.
  - destruct types as [|t [|t' types]]; try discriminate.
    cbn. destruct t; try discriminate. cbn.
    intros E. apply String.eqb_eq in E. now subst.
  - intros ->. reflexivity.
Qed.

Lemma device_types_run h types :
  types <> [VStr "all"] ->
  device_types types h =
  if forallb accepted_type types
  then (h ++ [OList types], Ret (VRef (length h)))
  else (h, Raise (first_error accepted_type types)).
Proof.
  intros N. unfold device_types.
  destruct ((length types =? 1)%nat && eq_str (hd VNone types) "all") eqn:E.
  - apply only_all_iff in E. contradiction.
  - unfold bind. rewrite device_types_loop.
    now destruct (forallb accepted_type types).
Qed.



(** C9.  [device_types()] with no argument raises nothing: it returns a new,
    empty list. *)
Theorem device_types_no_argument (h : heap) :
  device_types [] h = (h ++ [OList []], Ret (VRef (length h))).
Proof. reflexivity. Qed.

(** ** options *)

Lemma str_or_int_heap_free h h' v :
  isinstance_any h v [TStr; TInt] = isinstance_any h' v [TStr; TInt].
Proof. now destruct v. Qed.

Lemma options_run h expiry :
  options expiry h =
  (h ++ [ODict (put "expiry" expiry ∅)],
   if isinstance_any h expiry [TStr; TInt]
   then Ret (VRef (length h)) else Raise ValueError).
Proof.
  unfold options, new_dict. step_refl.
  step_with when_setitem_fresh.
  unfold bind, raise_unless.
  rewrite (str_or_int_heap_free _ h).
  now destruct (isinstance_any h expiry [TStr; TInt]).
Qed.

(** C4, on the code.  [options()] with [expiry] left at [None] raises
    [ValueError]: the type test stands outside the [is not None] test and
    [None] is neither a string nor an integer. *)
Theorem options_default_raises (h : heap) :
  options VNone h = (h ++ [ODict ∅], Raise ValueError).
Proof. now rewrite options_run. Qed.

(** The rest of what C4 says holds: a string or an integer is returned as the
    only field, any other supplied value raises [ValueError]. *)
Lemma options_supplied h expiry :
  expiry <> VNone ->
  options expiry h =
  (h ++ [ODict {[ "expiry" := expiry ]}],
   if isinstance_any h expiry [TStr; TInt]
   then Ret (VRef (length h)) else Raise ValueError).
Proof.
  intros N. rewrite options_run. unfold put.
  destruct expiry; try congruence; reflexivity.
Qed.

(** ** campaigns *)

Lemma campaigns_loop h cs :
  for_each cs (fun c =>
    is_str <- read (fun h => isinstance h c TStr) ;;
    when (negb is_str) (format_s c ;;; raise ValueError) ;;;
    n <- len c ;;
    when ((n =? 0)%nat || (64 <? n)%nat)
         (format_s c ;;; raise ValueError)) h =
  (h, if forallb good_category cs then Ret tt
      else Raise (first_error good_category cs)).
Proof.
  assert (Body : forall c,
    (is_str <- read (fun h => isinstance h c TStr) ;;
     when (negb is_str) (format_s c ;;; raise ValueError) ;;;
     n <- len c ;;
     when ((n =? 0)%nat || (64 <? n)%nat)
          (format_s c ;;; raise ValueError)) h =
    (h, if good_category c then Ret tt
        else Raise (if one_argument c then ValueError else TypeError))).
  { intros c. destruct c as [| | |s|xs| |]; try reflexivity.
    - unfold bind, read, len. cbn [isinstance negb when ret good_category].
      now destruct ((String.length s =? 0)%nat || (64 <? String.length s)%nat).
    - destruct xs as [|x [|y xs]]; reflexivity. }
  induction cs as [|c cs IH]; [reflexivity|].
  cbn [for_each forallb]. unfold bind at 1. rewrite Body.
  destruct (good_category c) eqn:G; cbn [andb].
  - rewrite first_error_next by exact G. apply IH.
  - now rewrite first_error_here by exact G.
Qed.

(** The tail of [campaigns], from the loop on: the same for a string, a
    tuple and a list once the elements [cs] are known. *)
Lemma campaigns_tail {A} h d t cs (k : unit -> M A) :
  (for_each cs (fun c =>
     is_str <- read (fun h => isinstance h c TStr) ;;
     when (negb is_str) (format_s c ;;; raise ValueError) ;;;
     n <- len c ;;
     when ((n =? 0)%nat || (64 <? n)%nat)
          (format_s c ;;; raise ValueError)) ;;;
   u <- (out <- new_list cs ;;
         setitem (VRef (length h)) "categories" out) ;;
   k u) (h ++ ODict d :: t) =
  if forallb good_category cs
  then k tt (h ++ ODict (<["categories" := VRef (S (length h + length t))]> d)
               :: t ++ [OList cs])
  else (h ++ ODict d :: t, Raise (first_error good_category cs)).
Proof.
  unfold bind at 1. rewrite campaigns_loop.
  destruct (forallb good_category cs); [|reflexivity].
  rewrite bind_assoc. unfold new_list. step_refl.
  rewrite <- app_assoc. cbn [app].
  step_by ltac:(apply setitem_fresh).
  rewrite length_app. cbn [length].
  now replace (length h + S (length t))%nat with (S (length h + length t)) by lia.
Qed.

Lemma campaigns_list h l xs :
  list_at h l = Some xs ->
  campaigns (VRef l) h =
  if (length xs =? 0)%nat || (10 <? length xs)%nat
  then (h ++ [ODict ∅], Raise ValueError)
  else if forallb good_category xs
  then (h ++ [ODict {[ "categories" := VRef (S (length h)) ]}; OList xs],
        Ret (VRef (length h)))
  else (h ++ [ODict ∅], Raise (first_error good_category xs)).
Proof.
  intros L.
  assert (E : (h ++ [ODict ∅]) !! l = Some (OList xs)).
  { unfold list_at in L. destruct (h !! l) as [[|]|] eqn:E0; simplify_eq.
    rewrite lookup_old; eauto using lookup_lt_Some. }
  unfold campaigns, new_dict. step_refl. cbn [is_not_none when]. norm.
  step_by ltac:(apply raise_unless_true; now rewrite (isinstance_list _ _ _ _ E)).
  step_refl. rewrite (isinstance_list _ _ _ _ E). cbn [when]. norm.
  step_by ltac:(eapply len_list_run; exact E).
  unfold bind at 1, raise_if at 1. rewrite (truthy_list _ _ _ E), negb_involutive.
  destruct ((length xs =? 0)%nat || (10 <? length xs)%nat); [reflexivity|].
  norm.
  step_refl. rewrite (isinstance_list _ _ _ _ E).
  step_refl.
  step_by ltac:(eapply elements_of_list_run; exact E).
  rewrite (campaigns_tail h ∅ []).
  now destruct (forallb good_category xs); cbn [length]; rewrite ?Nat.add_0_r.
Qed.

Lemma campaigns_tuple h xs :
  campaigns (VTuple xs) h =
  if forallb good_category xs
  then (h ++ [ODict {[ "categories" := VRef (S (length h)) ]}; OList xs],
        Ret (VRef (length h)))
  else (h ++ [ODict ∅], Raise (first_error good_category xs)).
Proof.
  unfold campaigns, new_dict. step_refl. cbn [is_not_none when]. norm.
  do 2 step_refl. cbn [isinstance when]. norm. do 4 step_refl.
  rewrite (campaigns_tail h ∅ []).
  now destruct (forallb good_category xs); cbn [length]; rewrite ?Nat.add_0_r.
Qed.

Lemma campaigns_str h s :
  campaigns (VStr s) h =
  if good_category (VStr s)
  then (h ++ [ODict {[ "categories" := VRef (S (S (length h))) ]};
              OList [VStr s]; OList [VStr s]],
        Ret (VRef (length h)))
  else (h ++ [ODict ∅; OList [VStr s]], Raise ValueError).
Proof.
  unfold campaigns, new_dict. step_refl. cbn [is_not_none when]. norm.
  do 2 step_refl. cbn [isinstance when]. norm. do 2 step_refl.
  unfold new_list. step_refl.
  step_by ltac:(unfold elements_of;
                rewrite (lookup_fresh (h ++ [ODict ∅]) []); reflexivity).
  rewrite <- app_assoc. cbn [app].
  rewrite (campaigns_tail h ∅ [OList [VStr s]]).
  cbn [forallb length]. rewrite andb_true_r.
  destruct (good_category (VStr s)) eqn:G;
    [|now rewrite first_error_here by exact G].
  now rewrite Nat.add_1_r.
Qed.

Lemma not_sequence_fresh h v :
  isinstance h v TSequence = false ->
  isinstance (h ++ [ODict ∅]) v TSequence = false.
Proof.
  destruct v; try easy. cbn [isinstance]. intros S.
  destruct (decide (l < length h)%nat) as [Lt|Ge].
  - now rewrite lookup_old.
  - destruct (decide (l = length h)) as [->|Ne].
    + now rewrite lookup_fresh.
    + rewrite lookup_ge_None_2; [easy|]. rewrite length_fresh. lia.
Qed.

Lemma campaigns_not_sequence h v :
  v <> VNone ->
  isinstance h v TSequence = false ->
  campaigns v h = (h ++ [ODict ∅], Raise TypeError).
Proof.
  intros N S. apply not_sequence_fresh in S.
  unfold campaigns, new_dict. step_refl.
  replace (is_not_none v) with true by (now destruct v).
  cbn [when]. norm.
  erewrite bind_raise_run; [reflexivity|].
  now apply raise_unless_false.
Qed.

Lemma campaigns_none h : campaigns VNone h = (h ++ [ODict ∅], Ret (VRef (length h))).
Proof. reflexivity. Qed.

Lemma good_category_length s :
  good_category (VStr s) = true <-> (1 <= String.length s <= 64)%nat.
Proof.
  cbn [good_category]. rewrite negb_true_iff, orb_false_iff.
  rewrite Nat.eqb_neq, Nat.ltb_ge. lia.
Qed.

(** C10.  A single string of length 1 to 64 given as [categories] is put
    into a list of its own: the document returned has the one field
    ['categories'], whose value is a list holding that string and not the
    string itself.  The caller's heap is extended, not changed. *)
Theorem campaigns_single_string (h : heap) (s : string) :
  (1 <= String.length s <= 64)%nat ->
  exists t c,
    campaigns (VStr s) h = (h ++ t, Ret (VRef (length h))) /\
    dict_at (h ++ t) (length h) = Some {[ "categories" := VRef c ]} /\
    list_at (h ++ t) c = Some [VStr s].
Proof.
  intros Len. apply good_category_length in Len.
  rewrite campaigns_str, Len.
  eexists _, _. split; [reflexivity|]. split.
  - apply dict_at_fresh.
  - unfold list_at. now rewrite lookup_third.
Qed.

Lemma campaigns_single_string_witness :
  exists t c,
    campaigns (VStr "kittens") [] = ([] ++ t, Ret (VRef 0%nat)) /\
    dict_at ([] ++ t) 0%nat = Some {[ "categories" := VRef c ]} /\
    list_at ([] ++ t) c = Some [VStr "kittens"].
Proof. apply (campaigns_single_string [] "kittens"). cbn. lia. Defined.

(** What [campaigns] does with a sequence, in one equation: only a list has
    its length tested, and the first category that fails decides the
    error. *)
Lemma campaigns_sequence h v cs :
  categories_of h v = Some cs ->
  (campaigns v h).2 =
  if isinstance h v TList && ((length cs =? 0)%nat || (10 <? length cs)%nat)
  then Raise ValueError
  else if forallb good_category cs then Ret (VRef (length h))
  else Raise (first_error good_category cs).
Proof.
  destruct v; try discriminate; cbn [categories_of]; intros E; simplify_eq.
  - rewrite campaigns_str. cbn [isinstance andb forallb].
    rewrite andb_true_r.
    destruct (good_category (VStr s)) eqn:G; [reflexivity|].
    now rewrite first_error_here by exact G.
  - rewrite campaigns_tuple. cbn [isinstance andb].
    now destruct (forallb good_category cs).
  - rewrite (campaigns_list _ _ _ E).
    unfold list_at in E. cbn [isinstance].
    destruct (h !! l) as [[|]|]; simplify_eq. cbn [andb].
    destruct ((length cs =? 0)%nat || (10 <? length cs)%nat); [reflexivity|].
    now destruct (forallb good_category cs).
Qed.

Lemma bad_category_found cs c :
  c ∈ cs -> good_category c = false -> forallb good_category cs = false.
Proof.
  intros In Bad. apply not_true_iff_false. intros All.
  rewrite forallb_forall in All.
  apply list_elem_of_In in In. apply All in In. congruence.
Qed.

(** C5, as the code has it.  With [categories] supplied: a value that is no
    sequence (no string, tuple or list) raises [TypeError]; a list whose
    length is not between 1 and 10 raises [ValueError]; a sequence with an
    element that is not a string raises [ValueError], and so does one with a
    string whose length is not between 1 and 64, as long as no element is a
    tuple of a length other than one.  In general the first element that is
    no string of length 1 to 64 decides: the message of the error is built
    from it with [%], which raises [TypeError] for such a tuple, and the
    error is a [ValueError] for any other value.  And
    [campaigns(categories=['kittens'])] returns a document whose only field
    ['categories'] is a list holding ['kittens']. *)
Theorem campaigns_validation :
  (forall h v,
      v <> VNone -> isinstance h v TSequence = false ->
      (campaigns v h).2 = Raise TypeError) /\
  (forall h l cs,
      list_at h l = Some cs -> (length cs < 1 \/ 10 < length cs)%nat ->
      (campaigns (VRef l) h).2 = Raise ValueError) /\
  (forall h v cs c,
      categories_of h v = Some cs -> forallb one_argument cs = true ->
      c ∈ cs -> (forall s, c <> VStr s) ->
      (campaigns v h).2 = Raise ValueError) /\
  (forall h v cs s,
      categories_of h v = Some cs -> forallb one_argument cs = true ->
      VStr s ∈ cs ->
      (String.length s < 1 \/ 64 < String.length s)%nat ->
      (campaigns v h).2 = Raise ValueError) /\
  (forall h v pre c post,
      categories_of h v = Some (pre ++ c :: post) ->
      (isinstance h v TList = true ->
       (1 <= length (pre ++ c :: post) <= 10)%nat) ->
      forallb good_category pre = true -> good_category c = false ->
      (campaigns v h).2 =
      Raise (if one_argument c then ValueError else TypeError)) /\
  (forall h l,
      list_at h l = Some [VStr "kittens"] ->
      exists t c,
        campaigns (VRef l) h = (h ++ t, Ret (VRef (length h))) /\
        dict_at (h ++ t) (length h) = Some {[ "categories" := VRef c ]} /\
        list_at (h ++ t) c = Some [VStr "kittens"]).
Proof.
  assert (Bad : forall h v cs c,
    categories_of h v = Some cs -> forallb one_argument cs = true ->
    c ∈ cs -> good_category c = false ->
    (campaigns v h).2 = Raise ValueError).
  { intros h v cs c E One In B. rewrite (campaigns_sequence _ _ _ E).
    rewrite (bad_category_found _ _ In B), (first_error_value _ _ One).
    now destruct (_ && _). }
  split; [|split; [|split; [|split; [|split]]]].
  - intros h v N S. now rewrite campaigns_not_sequence.
  - intros h l cs E Len. rewrite (campaigns_list _ _ _ E).
    replace ((length cs =? 0)%nat || (10 <? length cs)%nat) with true;
      [reflexivity|].
    symmetry. apply orb_true_iff. rewrite Nat.eqb_eq, Nat.ltb_lt. lia.
  - intros h v cs c E One In NoStr. apply (Bad h v cs c E One In).
    destruct c; try reflexivity. now destruct (NoStr s).
  - intros h v cs s E One In Len. apply (Bad h v cs (VStr s) E One In).
    apply not_true_iff_false. rewrite good_category_length. lia.
  - intros h v pre c post E Len Good B.
    rewrite (campaigns_sequence _ _ _ E).
    replace (isinstance h v TList &&
             ((length (pre ++ c :: post) =? 0)%nat ||
              (10 <? length (pre ++ c :: post))%nat)) with false.
    + rewrite forallb_app. cbn [forallb]. rewrite B, andb_false_r.
      now rewrite (first_error_split _ _ _ _ Good B).
    + symmetry. destruct (isinstance h v TList); [|reflexivity].
      specialize (Len eq_refl). cbn [andb].
      apply orb_false_iff. rewrite Nat.eqb_neq, Nat.ltb_ge. lia.
  - intros h l E. rewrite (campaigns_list _ _ _ E). cbn.
    eexists _, _. split; [reflexivity|]. split.
    + apply dict_at_fresh.
    + unfold list_at. now rewrite lookup_second.
Qed.

Lemma campaigns_validation_witness :
  (campaigns (VInt 7) []).2 = Raise TypeError /\
  (campaigns (VRef 0%nat) [OList []]).2 = Raise ValueError /\
  (campaigns (VRef 0%nat) [OList [VStr "kittens"; VInt 5]]).2 = Raise ValueError /\
  (campaigns (VTuple [VStr ""]) []).2 = Raise ValueError /\
  (campaigns (VRef 0%nat)
     [OList [VStr "kittens"; VTuple [VStr "a"; VStr "b"]; VStr ""]]).2 =
    Raise TypeError /\
  exists t c,
    campaigns (VRef 0%nat) [OList [VStr "kittens"]] =
      ([OList [VStr "kittens"]] ++ t, Ret (VRef 1%nat)) /\
    dict_at ([OList [VStr "kittens"]] ++ t) 1%nat =
      Some {[ "categories" := VRef c ]} /\
    list_at ([OList [VStr "kittens"]] ++ t) c = Some [VStr "kittens"].
Proof.
  destruct campaigns_validation
    as (NoSeq & Len & NoStr & StrLen & First & Kittens).
  split; [|split; [|split; [|split; [|split]]]].
  - apply NoSeq; [discriminate | reflexivity].
  - apply (Len _ _ []); [reflexivity | cbn; lia].
  - apply (NoStr _ _ [VStr "kittens"; VInt 5] (VInt 5));
      [reflexivity | reflexivity | | discriminate].
    apply list_elem_of_In. cbn. tauto.
  - apply (StrLen _ _ [VStr ""] ""); [reflexivity | reflexivity | | cbn; lia].
    apply list_elem_of_In. cbn. tauto.
  - apply (First _ _ [VStr "kittens"] (VTuple [VStr "a"; VStr "b"])
             [VStr ""]); [reflexivity | cbn; lia | reflexivity | reflexivity].
  - apply (Kittens [OList [VStr "kittens"]] 0%nat). reflexivity.
Defined.

(** C5 as stated fails twice.  The empty tuple is a sequence of length 0 and
    [campaigns] returns a document for it; and a list holding the integer 5
    is no sequence of strings, and the error is a [ValueError], not a
    [TypeError]. *)
Lemma campaigns_sequence_counterexample :
  campaigns (VTuple []) [] =
    ([ODict {[ "categories" := VRef 1%nat ]}; OList []], Ret (VRef 0%nat)) /\
  campaigns (VRef 0%nat) [OList [VInt 5]] =
    ([OList [VInt 5]; ODict ∅], Raise ValueError).
Proof. split; vm_compute; reflexivity. Qed.

(** ** media_attachment *)

(** [media_attachment], the builder next to [content] in the source, reads
    each of its three parameters, [options] among them. *)
Lemma media_attachment_fields h url content options :
  exists t d,
    media_attachment url content options h =
      (h ++ t, Ret (VRef (S (length h)))) /\
    dict_at (h ++ t) (S (length h)) = Some d /\
    d !! "url" = kept (Some url) /\
    d !! "content" = kept (Some content) /\
    d !! "options" = kept (Some options).
Proof.
  destruct (display_builder_run h
    [("url", url); ("content", content); ("options", options)])
    as (d & Run & Fields).
  eexists _, d. split; [exact Run|].
  split; [unfold dict_at; now rewrite lookup_second|].
  rewrite !Fields. cbn [dict_of fold_left fst snd].
  now rewrite !lookup_insert, lookup_empty.
Qed.

(** ** content *)

(** What [content] returns on every input: [title] and [subtitle] when they
    are supplied, never [body], and always the function [options]. *)
Lemma content_fields h title subtitle body :
  exists t d,
    content title subtitle body h = (h ++ t, Ret (VRef (S (length h)))) /\
    dict_at (h ++ t) (S (length h)) = Some d /\
    forall k, d !! k =
      if decide (k = "options") then Some (VFun "options")
      else if decide (k = "subtitle") then kept (Some subtitle)
      else if decide (k = "title") then kept (Some title)
      else None.
Proof.
  destruct (display_builder_run h
    [("title", title); ("subtitle", subtitle); ("options", VFun "options")])
    as (d & Run & Fields).
  eexists _, d. split; [exact Run|].
  split; [unfold dict_at; now rewrite lookup_second|].
  intros k. rewrite Fields. cbn [dict_of fold_left fst snd].
  rewrite !lookup_insert, lookup_empty.
  repeat case_decide; now subst.
Qed.

(** C1, on the code.  Two builders leave out a field that was supplied.
    [content] never puts [body] in its document, whatever the arguments, and
    always puts the function [options] there: [content(body='Hello')] is
    [{'options': <function options>}].  And [in_app] called with a
    dictionary as [extra] returns a document with no field ['extra']. *)
Theorem content_in_app_drop_supplied_fields :
  (forall h title subtitle body,
      exists t d,
        content title subtitle body h = (h ++ t, Ret (VRef (S (length h)))) /\
        dict_at (h ++ t) (S (length h)) = Some d /\
        d !! "body" = None /\
        d !! "options" = Some (VFun "options")) /\
  (forall h, exists t,
        content VNone VNone (VStr "Hello") h =
          (h ++ t, Ret (VRef (S (length h)))) /\
        dict_at (h ++ t) (S (length h)) =
          Some {[ "options" := VFun "options" ]}) /\
  (forall h alert display_type expiry display actions interactive l m,
      dict_at h l = Some m ->
      exists h' d,
        in_app alert display_type expiry display actions interactive
               (VRef l) h = (h', Ret (VRef (length h))) /\
        dict_at h' (length h) = Some d /\
        d !! "extra" = None).
Proof.
  split; [|split].
  - intros h title subtitle body.
    destruct (content_fields h title subtitle body) as (t & d & Run & At & F).
    exists t, d. split; [exact Run|]. split; [exact At|].
    now rewrite !F.
  - intros h.
    destruct (content_fields h VNone VNone (VStr "Hello"))
      as (t & d & Run & At & F).
    exists t. split; [exact Run|]. rewrite At. f_equal.
    apply map_eq. intros k. rewrite F.
    destruct (decide (k = "options")) as [->|Ne].
    + now rewrite lookup_singleton_eq.
    + rewrite lookup_singleton_ne by congruence.
      now repeat case_decide.
  - intros h alert display_type expiry display actions interactive l m E.
    rewrite (in_app_run_extra _ _ _ _ _ _ _ _ _ E).
    eexists _, _. split; [reflexivity|]. split.
    + unfold dict_at.
      rewrite <- (length_insert h l (ODict (<["extra" := VRef l]> m))).
      now rewrite lookup_fresh.
    + apply in_app_fields_no_extra.
Qed.

Lemma content_in_app_drop_supplied_fields_witness :
  exists h' d,
    in_app (VStr "Sale") (VStr "banner") VNone VNone VNone VNone (VRef 0%nat)
           [ODict {[ "promo" := VStr "yes" ]}] = (h', Ret (VRef 1%nat)) /\
    dict_at h' 1%nat = Some d /\
    d !! "extra" = None.
Proof.
  apply (proj2 (proj2 content_in_app_drop_supplied_fields)
           [ODict {[ "promo" := VStr "yes" ]}] _ _ _ _ _ _ 0%nat
           {[ "promo" := VStr "yes" ]}).
  reflexivity.
Defined.

(** ** crop *)

Lemma crop_fields h x y width height :
  exists t d,
    crop x y width height h = (h ++ t, Ret (VRef (S (length h)))) /\
    dict_at (h ++ t) (S (length h)) = Some d /\
    d !! "x" = kept (Some x) /\
    d !! "y" = kept (Some y) /\
    d !! "width" = kept (Some width) /\
    d !! "height" = kept (Some height).
Proof.
  destruct (display_builder_run h
    [("x", x); ("y", y); ("width", width); ("height", height)])
    as (d & Run & Fields).
  eexists _, d. split; [exact Run|].
  split; [unfold dict_at; now rewrite lookup_second|].
  rewrite !Fields. cbn [dict_of fold_left fst snd].
  now rewrite !lookup_insert, lookup_empty.
Qed.

(** * Validation and construction of the remaining builders *)

(** ** Values of the caller under allocation *)

Lemma isinstance_fresh h t v ty :
  in_heap h v = true -> isinstance (h ++ t) v ty = isinstance h v ty.
Proof.
  intros In. destruct v; try reflexivity. cbn in In.
  apply Nat.ltb_lt in In. destruct ty; cbn [isinstance]; now rewrite ?lookup_old.
Qed.

Lemma isinstance_scalar h h' v ty :
  match ty with TStr | TInt | TBool => True | _ => False end ->
  isinstance h v ty = isinstance h' v ty.
Proof. destruct ty; try easy; now destruct v. Qed.

Lemma truthy_fresh h t v :
  in_heap h v = true -> truthy (h ++ t) v = truthy h v.
Proof.
  intros In. destruct v; try reflexivity. cbn in In.
  apply Nat.ltb_lt in In. cbn [truthy]. now rewrite lookup_old.
Qed.

(** ** Blocks of a builder *)

Section Builds.
Context (h0 : heap).
Implicit Types (f : gmap string value -> gmap string value).

Lemma builds_seq {A} ok1 f1 m1 ok2 f2 (a : A) m2 :
  builds h0 ok1 f1 tt m1 -> builds h0 ok2 f2 a m2 ->
  builds h0 (ok1 && ok2) (fun d => f2 (f1 d)) a (m1 ;;; m2).
Proof.
  intros B1 B2 d. specialize (B1 d). destruct ok1; cbn [andb].
  - specialize (B2 (f1 d)). rewrite (bind_ret_run _ _ _ _ _ B1).
    exact B2.
  - destruct B1 as (d' & e & Run & Class). exists d', e.
    now rewrite (bind_raise_run _ _ _ _ _ Run).
Qed.

Lemma builds_ret {A} (a : A) : builds h0 true (fun d => d) a (ret a).
Proof. now intros d. Qed.

Lemma builds_read {A B} (g : heap -> B) b ok f (a : A) (k : B -> M A) :
  (forall d, g (h0 ++ [ODict d]) = b) ->
  builds h0 ok f a (k b) -> builds h0 ok f a (bind (read g) k).
Proof.
  intros G Bk d. specialize (Bk d).
  rewrite (bind_ret_run _ _ _ _ _ eq_refl), G. exact Bk.
Qed.

Lemma builds_put k v :
  builds h0 true (put k v)
    (tt) (when (is_not_none v) (setitem (VRef (length h0)) k v)).
Proof. intros d. apply when_setitem_fresh. Qed.

Lemma builds_flag k c flag :
  builds h0 true (put_flag k c flag)
    (tt) (when flag (setitem (VRef (length h0)) k c)).
Proof.
  intros d. unfold put_flag. destruct flag; [apply setitem_fresh | reflexivity].
Qed.

Lemma builds_when c ok f (m : M unit) :
  (c = true -> builds h0 ok f tt m) ->
  (c = false -> ok = true /\ forall d, f d = d) ->
  builds h0 ok f tt (when c m).
Proof.
  intros Body Skip d. destruct c; [now apply Body|].
  destruct (Skip eq_refl) as [-> Id]. cbn. now rewrite Id.
Qed.

(** [if x is not None: if not c: raise e; payload[k] = x] *)
Lemma builds_checked k x c e b :
  (e = ValueError \/ e = TypeError) ->
  (forall d, c (h0 ++ [ODict d]) = b) ->
  builds h0 (optional x b) (put k x) tt
    (when (is_not_none x)
       (raise_unless c e ;;; setitem (VRef (length h0)) k x)).
Proof.
  intros Class C d. unfold optional, put.
  destruct (is_not_none x); cbn [negb orb when]; [|reflexivity].
  unfold bind, raise_unless. rewrite C.
  destruct b; [apply setitem_fresh | now exists d, e].
Qed.

(** [if x is not None: if c: raise e; payload[k] = x] *)
Lemma builds_rejected k x c e b :
  (e = ValueError \/ e = TypeError) ->
  (forall d, c (h0 ++ [ODict d]) = b) ->
  builds h0 (optional x (negb b)) (put k x) tt
    (when (is_not_none x)
       (raise_if c e ;;; setitem (VRef (length h0)) k x)).
Proof.
  intros Class C d. unfold optional, put.
  destruct (is_not_none x); cbn [negb orb when]; [|reflexivity].
  unfold bind, raise_if. rewrite C.
  destruct b; cbn [negb]; [now exists d, e | apply setitem_fresh].
Qed.

(** [if x is not None: if not c1: raise e1; if c2: raise e2; payload[k] = x] *)
Lemma builds_checked_twice k x c1 e1 b1 c2 e2 b2 :
  (e1 = ValueError \/ e1 = TypeError) ->
  (e2 = ValueError \/ e2 = TypeError) ->
  (forall d, c1 (h0 ++ [ODict d]) = b1) ->
  (forall d, c2 (h0 ++ [ODict d]) = b2) ->
  builds h0 (optional x (b1 && negb b2)) (put k x) tt
    (when (is_not_none x)
       (raise_unless c1 e1 ;;; raise_if c2 e2 ;;;
        setitem (VRef (length h0)) k x)).
Proof.
  intros Class1 Class2 C1 C2 d. unfold optional, put.
  destruct (is_not_none x); cbn [negb orb when]; [|reflexivity].
  destruct b1; cbn [andb].
  - erewrite bind_ret_run by (apply raise_unless_true, C1).
    unfold bind, raise_if. rewrite C2.
    destruct b2; cbn [negb];
      [exists d, e2; split; [reflexivity | assumption] | apply setitem_fresh].
  - exists d, e1. split; [|assumption].
    apply bind_raise_run. apply raise_unless_false, C1.
Qed.

(** [if x is not None: payload[k] = x; if not c: raise e] *)
Lemma builds_checked_after k x c e b :
  (e = ValueError \/ e = TypeError) ->
  (forall d, c (h0 ++ [ODict d]) = b) ->
  builds h0 (optional x b) (put k x) tt
    (when (is_not_none x)
       (setitem (VRef (length h0)) k x ;;; raise_unless c e)).
Proof.
  intros Class C d. unfold optional, put.
  destruct (is_not_none x); cbn [negb orb when]; [|reflexivity].
  unfold bind. rewrite setitem_fresh. unfold raise_unless. rewrite C.
  destruct b; [reflexivity | now exists (<[k := x]> d), e].
Qed.

(** [if x is not None: if x not in {n1, ...}: raise ValueError; payload[k] = x] *)
Lemma builds_in_int_set k x ns :
  builds h0
    (optional x (hashable x &&
                 match x with
                 | VInt n => existsb (Z.eqb n) ns
                 | VBool b => existsb (Z.eqb (Z.b2z b)) ns
                 | _ => false
                 end))
    (put k x) tt
    (when (is_not_none x)
       (ok <- in_int_set x ns ;;
        when (negb ok) (raise ValueError) ;;;
        setitem (VRef (length h0)) k x)).
Proof.
  intros d. unfold optional, put.
  destruct (is_not_none x); cbn [negb orb when]; [|reflexivity].
  unfold bind, in_int_set.
  destruct (hashable x); cbn [andb]; [|now exists d, TypeError; auto].
  cbn [ret].
  match goal with |- context [negb ?m] => destruct m end; cbn [negb when].
  - apply setitem_fresh.
  - exists d, ValueError. auto.
Qed.

(** The same for a set of strings. *)
Lemma builds_in_str_set k x ss :
  builds h0 (optional x (hashable x && in_str_tuple x ss)) (put k x) tt
    (when (is_not_none x)
       (ok <- in_str_set x ss ;;
        when (negb ok) (raise ValueError) ;;;
        setitem (VRef (length h0)) k x)).
Proof.
  intros d. unfold optional, put.
  destruct (is_not_none x); cbn [negb orb when]; [|reflexivity].
  unfold bind, in_str_set.
  destruct (hashable x); cbn [andb]; [|now exists d, TypeError; auto].
  cbn [ret]. destruct (in_str_tuple x ss); cbn [negb when].
  - apply setitem_fresh.
  - exists d, ValueError. auto.
Qed.

Lemma builds_conv {A} ok ok' f f' (a : A) m :
  builds h0 ok f a m -> ok = ok' -> (forall d, f d = f' d) ->
  builds h0 ok' f' a m.
Proof. intros B <- F d. specialize (B d). destruct ok; now rewrite <- ?F. Qed.

(** What a builder does that allocates its payload first, from what its
    blocks do. *)
Lemma builds_from ok ok' f d0 doc (m : value -> M value) :
  builds h0 ok f (VRef (length h0)) (m (VRef (length h0))) ->
  ok = ok' -> f d0 = doc ->
  (ok' = true ->
   bind (alloc (ODict d0)) m h0 =
     (h0 ++ [ODict doc], Ret (VRef (length h0)))) /\
  (ok' = false ->
   exists d e, bind (alloc (ODict d0)) m h0 = (h0 ++ [ODict d], Raise e) /\
               (e = ValueError \/ e = TypeError)).
Proof.
  intros B <- <-. specialize (B d0).
  rewrite (bind_ret_run _ _ _ _ _ eq_refl).
  split; intros ->; exact B.
Qed.

End Builds.

(** The side conditions of the blocks: a test on a value of the caller does
    not see the payload. *)
Ltac heap_free :=
  intros; unfold isinstance_any; cbn [existsb];
  repeat match goal with
         | H : in_heap ?h ?v = true |- context [isinstance (?h ++ ?t) ?v ?ty] =>
             rewrite (isinstance_fresh h t v ty H)
         | H : in_heap ?h ?v = true |- context [truthy (?h ++ ?t) ?v] =>
             rewrite (truthy_fresh h t v H)
         | |- context [isinstance (?h ++ ?t) ?v TStr] =>
             rewrite (isinstance_scalar (h ++ t) h v TStr I)
         | |- context [isinstance (?h ++ ?t) ?v TInt] =>
             rewrite (isinstance_scalar (h ++ t) h v TInt I)
         | |- context [isinstance (?h ++ ?t) ?v TBool] =>
             rewrite (isinstance_scalar (h ++ t) h v TBool I)
         end;
  rewrite ?orb_false_r; reflexivity.

Ltac class := first [left; reflexivity | right; reflexivity].

Ltac build_blocks :=
  repeat first
    [ apply builds_ret
    | eapply builds_seq;
        [ first [ apply builds_put
                | apply builds_flag
                | eapply builds_checked; [class | heap_free]
                | eapply builds_rejected; [class | heap_free]
                | eapply builds_checked_twice;
                    [class | class | heap_free | heap_free]
                | eapply builds_checked_after; [class | heap_free]
                | apply builds_in_int_set
                | apply builds_in_str_set ] | ]
    | eapply builds_read; [heap_free | ] ].

(** ** ios *)

Lemma autobadge_test h badge :
  (isinstance h badge TStr || isinstance h badge TInt) &&
  negb (isinstance h badge TStr && negb (VALID_AUTOBADGE (str_of badge))) =
  isinstance h badge TInt ||
  (isinstance h badge TStr && VALID_AUTOBADGE (str_of badge)).
Proof.
  destruct badge; try reflexivity. cbn.
  now destruct (VALID_AUTOBADGE s).
Qed.

Lemma priority_test priority :
  hashable priority &&
  match priority with
  | VInt n => existsb (Z.eqb n) [10; 5]
  | VBool b => existsb (Z.eqb (Z.b2z b)) [10; 5]
  | _ => false
  end = eq_int priority 5 || eq_int priority 10.
Proof.
  destruct priority; try reflexivity.
  - now destruct b.
  - cbn. rewrite orb_false_r. apply orb_comm.
  - apply andb_false_r.
Qed.

Lemma ios_outcome (h : heap)
    (alert badge sound content_available extra expiry interactive category
     title mutable_content subtitle media_attachment priority
     collapse_id : value) :
  in_heap h alert = true -> in_heap h content_available = true ->
  (ios_valid h alert badge expiry category title priority collapse_id = true ->
   ios alert badge sound content_available extra expiry interactive category
       title mutable_content subtitle media_attachment priority collapse_id h
   = (h ++ [ODict (ios_fields h alert badge sound content_available extra
                     expiry interactive category title mutable_content
                     subtitle media_attachment priority collapse_id)],
      Ret (VRef (length h)))) /\
  (ios_valid h alert badge expiry category title priority collapse_id = false ->
   exists d e,
     ios alert badge sound content_available extra expiry interactive category
         title mutable_content subtitle media_attachment priority collapse_id h
     = (h ++ [ODict d], Raise e) /\
     (e = ValueError \/ e = TypeError)).
Proof.
  intros InA InC. unfold ios, new_dict.
  eapply builds_from; [cbn beta; build_blocks | | reflexivity].
  unfold ios_valid. cbn [andb].
  rewrite autobadge_test, priority_test, ?andb_true_r, ?andb_assoc.
  reflexivity.
Qed.

(** [ios] returns exactly when its arguments pass [ios_valid].  It then
    returns a new document with a field for each argument that is supplied,
    under the name of the keyword, and with ['content-available'] set to 1
    when [content_available] is true.  Otherwise it raises [ValueError] or
    [TypeError].  Either way the objects of the caller stay as they are. *)
Theorem ios_returns_iff_valid (h : heap)
    (alert badge sound content_available extra expiry interactive category
     title mutable_content subtitle media_attachment priority
     collapse_id : value) :
  in_heap h alert = true -> in_heap h content_available = true ->
  (ios_valid h alert badge expiry category title priority collapse_id = true ->
   ios alert badge sound content_available extra expiry interactive category
       title mutable_content subtitle media_attachment priority collapse_id h
   = (h ++ [ODict (ios_fields h alert badge sound content_available extra
                     expiry interactive category title mutable_content
                     subtitle media_attachment priority collapse_id)],
      Ret (VRef (length h)))) /\
  (ios_valid h alert badge expiry category title priority collapse_id = false ->
   exists d e,
     ios alert badge sound content_available extra expiry interactive category
         title mutable_content subtitle media_attachment priority collapse_id h
     = (h ++ [ODict d], Raise e) /\
     (e = ValueError \/ e = TypeError)).
Proof. intros; eapply ios_outcome; eassumption. Qed.

Lemma ios_returns_iff_valid_witness :
  ios (VStr "Hello!") (VStr "+1") (VStr "cat.caf") (VBool false) (VRef 0%nat)
      VNone VNone VNone VNone VNone VNone VNone (VInt 10) VNone
      [ODict {[ "articleid" := VStr "12345" ]}] =
  ([ODict {[ "articleid" := VStr "12345" ]};
    ODict (<["priority" := VInt 10]> (<["extra" := VRef 0%nat]>
            (<["sound" := VStr "cat.caf"]> (<["badge" := VStr "+1"]>
              (<["alert" := VStr "Hello!"]> ∅)))))],
   Ret (VRef 1%nat)) /\
  exists d e,
    ios VNone VNone VNone (VBool false) VNone VNone VNone VNone VNone VNone
        VNone VNone (VInt 7) VNone [] = ([ODict d], Raise e) /\
    (e = ValueError \/ e = TypeError).
Proof.
  split.
  - apply (proj1 (ios_returns_iff_valid
                    [ODict {[ "articleid" := VStr "12345" ]}]
                    (VStr "Hello!") (VStr "+1") (VStr "cat.caf") (VBool false)
                    (VRef 0%nat) VNone VNone VNone VNone VNone VNone VNone
                    (VInt 10) VNone eq_refl eq_refl)).
    reflexivity.
  - apply (proj2 (ios_returns_iff_valid [] VNone VNone VNone (VBool false)
                    VNone VNone VNone VNone VNone VNone VNone VNone (VInt 7)
                    VNone eq_refl eq_refl)).
    reflexivity.
Defined.

(** ** android *)

Lemma delivery_priority_test v :
  hashable v && in_str_tuple v ["high"; "normal"] =
  eq_str v "high" || eq_str v "normal".
Proof.
  destruct v; try reflexivity.
  - cbn. now rewrite orb_false_r.
  - apply andb_false_r.
Qed.

Lemma icon_color_test h v :
  negb (isinstance h v TStr && negb (VALID_ICON_COLOR (str_of v))) =
  negb (isinstance h v TStr) || VALID_ICON_COLOR (str_of v).
Proof. now rewrite negb_andb, negb_involutive. Qed.

Lemma android_outcome (h : heap)
    (alert collapse_key time_to_live delay_while_idle extra interactive
     local_only wearable delivery_priority style title summary sound priority
     category visibility public_notification notification_tag
     notification_channel icon icon_color : value) :
  in_heap h delay_while_idle = true -> in_heap h wearable = true ->
  (android_valid h time_to_live local_only wearable delivery_priority priority
     category visibility icon_color = true ->
   android alert collapse_key time_to_live delay_while_idle extra interactive
     local_only wearable delivery_priority style title summary sound priority
     category visibility public_notification notification_tag
     notification_channel icon icon_color h
   = (h ++ [ODict (android_fields h alert collapse_key time_to_live
                     delay_while_idle extra interactive local_only wearable
                     delivery_priority style title summary sound priority
                     category visibility public_notification notification_tag
                     notification_channel icon icon_color)],
      Ret (VRef (length h)))) /\
  (android_valid h time_to_live local_only wearable delivery_priority priority
     category visibility icon_color = false ->
   exists d e,
     android alert collapse_key time_to_live delay_while_idle extra interactive
       local_only wearable delivery_priority style title summary sound
       priority category visibility public_notification notification_tag
       notification_channel icon icon_color h
     = (h ++ [ODict d], Raise e) /\
     (e = ValueError \/ e = TypeError)).
Proof.
  intros InD InW. unfold android, new_dict.
  eapply builds_from; [cbn beta; build_blocks | | reflexivity].
  unfold android_valid. cbn [andb].
  rewrite delivery_priority_test, icon_color_test, ?andb_true_r, ?andb_assoc.
  reflexivity.
Qed.

(** [android] returns exactly when its arguments pass [android_valid].  It
    then returns a new document with a field for each argument that is
    supplied, and with ['delay_while_idle'] set to [True] when
    [delay_while_idle] is true.  Otherwise it raises [ValueError] or
    [TypeError].  Either way the objects of the caller stay as they are. *)
Theorem android_returns_iff_valid (h : heap)
    (alert collapse_key time_to_live delay_while_idle extra interactive
     local_only wearable delivery_priority style title summary sound priority
     category visibility public_notification notification_tag
     notification_channel icon icon_color : value) :
  in_heap h delay_while_idle = true -> in_heap h wearable = true ->
  (android_valid h time_to_live local_only wearable delivery_priority priority
     category visibility icon_color = true ->
   android alert collapse_key time_to_live delay_while_idle extra interactive
     local_only wearable delivery_priority style title summary sound priority
     category visibility public_notification notification_tag
     notification_channel icon icon_color h
   = (h ++ [ODict (android_fields h alert collapse_key time_to_live
                     delay_while_idle extra interactive local_only wearable
                     delivery_priority style title summary sound priority
                     category visibility public_notification notification_tag
                     notification_channel icon icon_color)],
      Ret (VRef (length h)))) /\
  (android_valid h time_to_live local_only wearable delivery_priority priority
     category visibility icon_color = false ->
   exists d e,
     android alert collapse_key time_to_live delay_while_idle extra interactive
       local_only wearable delivery_priority style title summary sound
       priority category visibility public_notification notification_tag
       notification_channel icon icon_color h
     = (h ++ [ODict d], Raise e) /\
     (e = ValueError \/ e = TypeError)).
Proof. intros; eapply android_outcome; eassumption. Qed.

Lemma android_returns_iff_valid_witness :
  android (VStr "Hello!") VNone (VInt 3600) (VInt 1) VNone VNone (VBool true)
          (VRef 0%nat) (VStr "high") VNone VNone VNone VNone (VInt (-2))
          (VStr "promo") (VInt 1) VNone VNone VNone VNone (VInt 255)
          [ODict ∅] =
  ([ODict ∅;
    ODict (<["icon_color" := VInt 255]> (<["visibility" := VInt 1]>
            (<["category" := VStr "promo"]> (<["priority" := VInt (-2)]>
              (<["delivery_priority" := VStr "high"]>
                (<["wearable" := VRef 0%nat]> (<["local_only" := VBool true]>
                  (<["delay_while_idle" := VBool true]>
                    (<["time_to_live" := VInt 3600]>
                      (<["alert" := VStr "Hello!"]> ∅))))))))))],
   Ret (VRef 1%nat)) /\
  exists d e,
    android VNone VNone VNone (VBool false) VNone VNone VNone VNone VNone VNone
            VNone VNone VNone (VInt 3) VNone VNone VNone VNone VNone VNone
            VNone [] = ([ODict d], Raise e) /\
    (e = ValueError \/ e = TypeError).
Proof.
  split.
  - apply (proj1 (android_returns_iff_valid [ODict ∅]
                    (VStr "Hello!") VNone (VInt 3600) (VInt 1) VNone VNone
                    (VBool true) (VRef 0%nat) (VStr "high") VNone VNone VNone
                    VNone (VInt (-2)) (VStr "promo") (VInt 1) VNone VNone
                    VNone VNone (VInt 255) eq_refl eq_refl)).
    reflexivity.
  - apply (proj2 (android_returns_iff_valid [] VNone VNone VNone (VBool false)
                    VNone VNone VNone VNone VNone VNone VNone VNone VNone
                    (VInt 3) VNone VNone VNone VNone VNone VNone VNone
                    eq_refl eq_refl)).
    reflexivity.
Defined.

(** ** amazon *)

(** [amazon] returns exactly when [expires_after] is omitted, a string or
    an integer: a new document with a field for each argument that is
    supplied.  Otherwise it raises, and the caller's objects stay as they
    are. *)
Theorem amazon_returns_iff_valid (h : heap)
    (alert consolidation_key expires_after extra title summary interactive
     style sound : value) :
  (optional expires_after
     (isinstance h expires_after TStr || isinstance h expires_after TInt)
   = true ->
   amazon alert consolidation_key expires_after extra title summary
          interactive style sound h
   = (h ++ [ODict (amazon_fields alert consolidation_key expires_after extra
                     title summary interactive style sound)],
      Ret (VRef (length h)))) /\
  (optional expires_after
     (isinstance h expires_after TStr || isinstance h expires_after TInt)
   = false ->
   exists d e,
     amazon alert consolidation_key expires_after extra title summary
            interactive style sound h
     = (h ++ [ODict d], Raise e) /\
     (e = ValueError \/ e = TypeError)).
Proof.
  unfold amazon, new_dict.
  eapply builds_from; [cbn beta; build_blocks | | reflexivity].
  cbn [andb]. now rewrite ?andb_true_r.
Qed.

(** ** web *)

(** [web] returns exactly when [icon] is omitted or a dictionary,
    [time_to_live] is omitted, a string or an integer, and
    [require_interaction] is omitted or a boolean: a new document with a
    field for each argument that is supplied.  Otherwise it raises
    [ValueError] or [TypeError]. *)
Theorem web_returns_iff_valid (h : heap)
    (alert extra icon title interactive time_to_live
     require_interaction : value) :
  in_heap h icon = true ->
  (web_valid h icon time_to_live require_interaction = true ->
   web alert extra icon title interactive time_to_live require_interaction h
   = (h ++ [ODict (web_fields alert extra icon title interactive time_to_live
                     require_interaction)],
      Ret (VRef (length h)))) /\
  (web_valid h icon time_to_live require_interaction = false ->
   exists d e,
     web alert extra icon title interactive time_to_live require_interaction h
     = (h ++ [ODict d], Raise e) /\
     (e = ValueError \/ e = TypeError)).
Proof.
  intros InI. unfold web, new_dict.
  eapply builds_from; [cbn beta; build_blocks | | reflexivity].
  unfold web_valid. cbn [andb]. now rewrite ?andb_true_r, ?andb_assoc.
Qed.

Lemma web_returns_iff_valid_witness :
  web VNone (VRef 0%nat) (VRef 1%nat) (VStr "This is a title!") VNone VNone
      VNone
      [ODict {[ "articleid" := VStr "12345" ]};
       ODict {[ "url" := VStr "https://example.com/icon.png" ]}] =
  ([ODict {[ "articleid" := VStr "12345" ]};
    ODict {[ "url" := VStr "https://example.com/icon.png" ]};
    ODict (<["title" := VStr "This is a title!"]>
            (<["icon" := VRef 1%nat]> (<["extra" := VRef 0%nat]> ∅)))],
   Ret (VRef 2%nat)) /\
  exists d e,
    web VNone VNone (VStr "icon.png") VNone VNone VNone VNone [] =
      ([ODict d], Raise e) /\
    (e = ValueError \/ e = TypeError).
Proof.
  split.
  - apply (proj1 (web_returns_iff_valid
                    [ODict {[ "articleid" := VStr "12345" ]};
                     ODict {[ "url" := VStr "https://example.com/icon.png" ]}]
                    VNone (VRef 0%nat) (VRef 1%nat) (VStr "This is a title!")
                    VNone VNone VNone eq_refl)).
    reflexivity.
  - apply (proj2 (web_returns_iff_valid [] VNone VNone (VStr "icon.png") VNone
                    VNone VNone VNone eq_refl)).
    reflexivity.
Defined.

(** ** message *)

Lemma message_outcome (h : heap)
    (title body content_type content_encoding extra expiry icons options
     campaigns : value) :
  in_heap h icons = true -> in_heap h options = true ->
  in_heap h campaigns = true ->
  (message_valid h expiry icons options campaigns = true ->
   message title body content_type content_encoding extra expiry icons options
           campaigns h
   = (h ++ [ODict (message_fields title body content_type content_encoding
                     extra expiry icons options campaigns)],
      Ret (VRef (length h)))) /\
  (message_valid h expiry icons options campaigns = false ->
   exists d e,
     message title body content_type content_encoding extra expiry icons
             options campaigns h
     = (h ++ [ODict d], Raise e) /\
     (e = ValueError \/ e = TypeError)).
Proof.
  intros InI InO InC. unfold message.
  eapply builds_from; [cbn beta; build_blocks | | reflexivity].
  unfold message_valid. cbn [andb]. now rewrite ?andb_true_r, ?andb_assoc.
Qed.

(** [message] returns exactly when [expiry] is omitted, a string or an
    integer and [icons], [options] and [campaigns] are omitted or
    dictionaries.  The document always has the fields ['title'] and ['body'],
    also when they are [None], and a field for each optional argument that
    is supplied.  Otherwise [message] raises [ValueError] or [TypeError]. *)
Theorem message_returns_iff_valid (h : heap)
    (title body content_type content_encoding extra expiry icons options
     campaigns : value) :
  in_heap h icons = true -> in_heap h options = true ->
  in_heap h campaigns = true ->
  (message_valid h expiry icons options campaigns = true ->
   message title body content_type content_encoding extra expiry icons options
           campaigns h
   = (h ++ [ODict (message_fields title body content_type content_encoding
                     extra expiry icons options campaigns)],
      Ret (VRef (length h)))) /\
  (message_valid h expiry icons options campaigns = false ->
   exists d e,
     message title body content_type content_encoding extra expiry icons
             options campaigns h
     = (h ++ [ODict d], Raise e) /\
     (e = ValueError \/ e = TypeError)).
Proof. intros; eapply message_outcome; eassumption. Qed.

Lemma message_returns_iff_valid_witness :
  message (VStr "Hi") VNone VNone VNone VNone (VInt 60) VNone VNone
          (VRef 0%nat) [ODict {[ "categories" := VRef 1%nat ]}; OList []] =
  ([ODict {[ "categories" := VRef 1%nat ]}; OList [];
    ODict (<["campaigns" := VRef 0%nat]> (<["expiry" := VInt 60]>
            (<["body" := VNone]> (<["title" := VStr "Hi"]> ∅))))],
   Ret (VRef 2%nat)) /\
  exists d e,
    message (VStr "Hi") (VStr "there") VNone VNone VNone VNone (VStr "icon")
            VNone VNone [] = ([ODict d], Raise e) /\
    (e = ValueError \/ e = TypeError).
Proof.
  split.
  - apply (proj1 (message_returns_iff_valid
                    [ODict {[ "categories" := VRef 1%nat ]}; OList []]
                    (VStr "Hi") VNone VNone VNone VNone (VInt 60) VNone VNone
                    (VRef 0%nat) eq_refl eq_refl eq_refl)).
    reflexivity.
  - apply (proj2 (message_returns_iff_valid [] (VStr "Hi") (VStr "there") VNone
                    VNone VNone VNone (VStr "icon") VNone VNone
                    eq_refl eq_refl eq_refl)).
    reflexivity.
Defined.

(** ** actions *)

Lemma tag_test h v :
  isinstance h v TSequence &&
  negb (isinstance h v TList && negb (truthy h v)) = tag_valid h v.
Proof. unfold tag_valid. now rewrite negb_andb, negb_involutive. Qed.

(** [actions] returns exactly when each tag argument is omitted, a string,
    a tuple or a list that is not empty, [open_] and [app_defined] are
    omitted or dictionaries, and [share] is omitted or a string.  The
    document has a field for each argument that is supplied, [open_] under
    the key ['open'].  Otherwise [actions] raises [ValueError] or
    [TypeError]. *)
Theorem actions_returns_iff_valid (h : heap)
    (add_tag remove_tag open_ share app_defined : value) :
  in_heap h add_tag = true -> in_heap h remove_tag = true ->
  in_heap h open_ = true -> in_heap h app_defined = true ->
  (actions_valid h add_tag remove_tag open_ share app_defined = true ->
   actions add_tag remove_tag open_ share app_defined h
   = (h ++ [ODict (actions_fields add_tag remove_tag open_ share
                     app_defined)],
      Ret (VRef (length h)))) /\
  (actions_valid h add_tag remove_tag open_ share app_defined = false ->
   exists d e,
     actions add_tag remove_tag open_ share app_defined h
     = (h ++ [ODict d], Raise e) /\
     (e = ValueError \/ e = TypeError)).
Proof.
  intros InA InR InO InD. unfold actions, new_dict.
  eapply builds_from; [cbn beta; build_blocks | | reflexivity].
  unfold actions_valid. cbn [andb].
  now rewrite !tag_test, ?andb_true_r, ?andb_assoc.
Qed.

Lemma actions_returns_iff_valid_witness :
  actions (VStr "x") VNone (VRef 0%nat) VNone VNone
          [ODict (<["content" := VStr "http://u"]> {[ "type" := VStr "url" ]})]
  = ([ODict (<["content" := VStr "http://u"]> {[ "type" := VStr "url" ]});
      ODict (<["open" := VRef 0%nat]> (<["add_tag" := VStr "x"]> ∅))],
     Ret (VRef 1%nat)) /\
  exists d e,
    actions (VRef 0%nat) VNone VNone VNone VNone [OList []] =
      ([OList []; ODict d], Raise e) /\
    (e = ValueError \/ e = TypeError).
Proof.
  split.
  - apply (proj1 (actions_returns_iff_valid
                    [ODict (<["content" := VStr "http://u"]>
                              {[ "type" := VStr "url" ]})]
                    (VStr "x") VNone (VRef 0%nat) VNone VNone
                    eq_refl eq_refl eq_refl eq_refl)).
    reflexivity.
  - apply (proj2 (actions_returns_iff_valid [OList []] (VRef 0%nat) VNone VNone
                    VNone VNone eq_refl eq_refl eq_refl eq_refl)).
    reflexivity.
Defined.

(** ** interactive *)

(** [interactive] without a [type] raises [AttributeError].  With a [type]
    it returns a document with the field ['type'], and ['button_actions']
    when that is supplied and a dictionary; a [button_actions] that is no
    dictionary raises [TypeError]. *)
Theorem interactive_outcomes (h : heap) (type button_actions : value) :
  in_heap h button_actions = true ->
  (type = VNone ->
   interactive type button_actions h = (h ++ [ODict ∅], Raise AttributeError))
  /\
  (type <> VNone ->
   optional button_actions (isinstance h button_actions TDict) = true ->
   interactive type button_actions h =
   (h ++ [ODict (put "button_actions" button_actions {[ "type" := type ]})],
    Ret (VRef (length h)))) /\
  (type <> VNone ->
   optional button_actions (isinstance h button_actions TDict) = false ->
   interactive type button_actions h =
   (h ++ [ODict {[ "type" := type ]}], Raise TypeError)).
Proof.
  intros InB. split; [intros ->; reflexivity|].
  assert (Run : type <> VNone ->
    interactive type button_actions h =
    if optional button_actions (isinstance h button_actions TDict)
    then (h ++ [ODict (put "button_actions" button_actions
                         {[ "type" := type ]})], Ret (VRef (length h)))
    else (h ++ [ODict {[ "type" := type ]}], Raise TypeError)).
  { intros N. unfold interactive, new_dict. step_refl.
    replace (is_not_none type) with true by (now destruct type). norm.
    step_with setitem_fresh.
    unfold optional, put.
    destruct (is_not_none button_actions); cbn [negb orb when];
      [|reflexivity].
    norm. unfold bind at 1, raise_unless.
    rewrite (isinstance_fresh _ _ _ _ InB).
    destruct (isinstance h button_actions TDict); [|reflexivity].
    step_with setitem_fresh. reflexivity. }
  split; intros N Ok; now rewrite Run, Ok.
Qed.

Lemma interactive_outcomes_witness :
  interactive VNone VNone [] = ([ODict ∅], Raise AttributeError) /\
  interactive (VStr "ua_yes_no_foreground") (VRef 0%nat) [ODict ∅] =
    ([ODict ∅;
      ODict (<["button_actions" := VRef 0%nat]>
               {[ "type" := VStr "ua_yes_no_foreground" ]})],
     Ret (VRef 1%nat)) /\
  interactive (VStr "ua_yes_no_foreground") (VStr "yes") [] =
    ([ODict {[ "type" := VStr "ua_yes_no_foreground" ]}], Raise TypeError).
Proof.
  split; [|split].
  - apply (proj1 (interactive_outcomes [] VNone VNone eq_refl)). reflexivity.
  - apply (proj1 (proj2 (interactive_outcomes [ODict ∅]
             (VStr "ua_yes_no_foreground") (VRef 0%nat) eq_refl)));
      [discriminate | reflexivity].
  - apply (proj2 (proj2 (interactive_outcomes []
             (VStr "ua_yes_no_foreground") (VStr "yes") eq_refl)));
      [discriminate | reflexivity].
Defined.

(** ** Builders that filter a dictionary display *)

(** The fields of a display that are not [None], set one after another. *)
Lemma kept_insert_put (m d : gmap string value) k0 v0 :
  m !! k0 = None ->
  (forall k, kept (m !! k) = d !! k) ->
  forall k, kept (<[k0 := v0]> m !! k) = put k0 v0 d !! k.
Proof.
  intros Free Same k. unfold put. destruct (decide (k0 = k)) as [<-|Ne].
  - rewrite lookup_insert_eq. cbn [kept].
    destruct (is_not_none v0); [now rewrite lookup_insert_eq|].
    now rewrite <- Same, Free.
  - rewrite lookup_insert_ne by exact Ne.
    destruct (is_not_none v0); [now rewrite lookup_insert_ne|apply Same].
Qed.

Lemma kept_fold_put kvs (m d : gmap string value) :
  NoDup kvs.*1 ->
  (forall k, k ∈ kvs.*1 -> m !! k = None) ->
  (forall k, kept (m !! k) = d !! k) ->
  forall k,
    kept (fold_left (fun m kv => <[kv.1 := kv.2]> m) kvs m !! k) =
    fold_left (fun d kv => put kv.1 kv.2 d) kvs d !! k.
Proof.
  revert m d. induction kvs as [|[k0 v0] kvs IH]; intros m d ND Free Same;
    [exact Same|].
  cbn in ND. apply NoDup_cons in ND as [New ND]. cbn [fold_left fst snd].
  apply IH; [exact ND | | ].
  - intros k In. rewrite lookup_insert_ne.
    + apply Free. cbn. now right.
    + intros <-. contradiction.
  - apply kept_insert_put; [|exact Same]. apply Free. cbn. left.
Qed.

Lemma display_builder_document h kvs :
  NoDup kvs.*1 ->
  (payload <- alloc (ODict (dict_of kvs)) ;; drop_none payload) h =
  (h ++ [ODict (dict_of kvs);
         ODict (fold_left (fun d kv => put kv.1 kv.2 d) kvs ∅)],
   Ret (VRef (S (length h)))).
Proof.
  intros ND. destruct (display_builder_run h kvs) as (d & Run & Fields).
  rewrite Run.
  assert (d = fold_left (fun d kv => put kv.1 kv.2 d) kvs ∅) as ->;
    [|reflexivity].
  apply map_eq. intros k. rewrite Fields.
  apply kept_fold_put; [exact ND | intros; apply lookup_empty |].
  intros k'. now rewrite !lookup_empty.
Qed.

Ltac distinct_keys :=
  cbn [fmap list_fmap fst];
  repeat (apply NoDup_cons_2;
          [intros In; apply list_elem_of_In in In; cbn in In;
           intuition discriminate|]);
  apply NoDup_nil_2.

Lemma wearable_outcome (h : heap)
    (background_image extra_pages interactive : value) :
  exists display,
    wearable background_image extra_pages interactive h =
    (h ++ [ODict display;
           ODict (put "interactive" interactive
                   (put "extra_pages" extra_pages
                     (put "background_image" background_image ∅)))],
     Ret (VRef (S (length h)))).
Proof.
  eexists. unfold wearable. rewrite display_builder_document by distinct_keys.
  reflexivity.
Qed.

(** [wearable] never raises: it returns a new document with exactly the
    arguments that are not [None], each under its name. *)
Theorem wearable_document (h : heap)
    (background_image extra_pages interactive : value) :
  exists display,
    wearable background_image extra_pages interactive h =
    (h ++ [ODict display;
           ODict (put "interactive" interactive
                   (put "extra_pages" extra_pages
                     (put "background_image" background_image ∅)))],
     Ret (VRef (S (length h)))).
Proof. intros; eapply wearable_outcome; eassumption. Qed.

(** [public_notification] never raises: it returns a new document with
    exactly the arguments that are not [None]. *)
Theorem public_notification_document (h : heap) (title alert summary : value) :
  exists display,
    public_notification title alert summary h =
    (h ++ [ODict display;
           ODict (put "summary" summary (put "alert" alert
                   (put "title" title ∅)))],
     Ret (VRef (S (length h)))).
Proof.
  eexists. unfold public_notification.
  rewrite display_builder_document by distinct_keys. reflexivity.
Qed.

(** [media_attachment] never raises: it returns a new document with exactly
    the arguments that are not [None]; a [url] that is [None] is left out
    like the others. *)
Theorem media_attachment_document (h : heap) (url content options : value) :
  exists display,
    media_attachment url content options h =
    (h ++ [ODict display;
           ODict (put "options" options (put "content" content
                   (put "url" url ∅)))],
     Ret (VRef (S (length h)))).
Proof.
  eexists. unfold media_attachment.
  rewrite display_builder_document by distinct_keys. reflexivity.
Qed.

(** [crop] never raises: it returns a new document with exactly the
    arguments that are not [None]. *)
Theorem crop_document (h : heap) (x y width height : value) :
  exists display,
    crop x y width height h =
    (h ++ [ODict display;
           ODict (put "height" height (put "width" width
                   (put "y" y (put "x" x ∅))))],
     Ret (VRef (S (length h)))).
Proof.
  eexists. unfold crop.
  rewrite display_builder_document by distinct_keys. reflexivity.
Qed.

(** ** style *)

Lemma find_key_fresh h m v :
  find_key (VRef (length h)) v (h ++ [ODict m]) =
  (h ++ [ODict m],
   if hashable v
   then Ret (match v with VStr s => m !! s | _ => None end)
   else Raise TypeError).
Proof. unfold find_key. rewrite lookup_fresh. now destruct (hashable v). Qed.

Lemma find_key_str h m s :
  find_key (VRef (length h)) (VStr s) (h ++ [ODict m]) =
  (h ++ [ODict m], Ret (m !! s)).
Proof. now rewrite find_key_fresh. Qed.

Lemma find_key_no_str h m v :
  hashable v = true -> (forall s, v <> VStr s) ->
  find_key (VRef (length h)) v (h ++ [ODict m]) = (h ++ [ODict m], Ret None).
Proof.
  intros Hash NoStr. rewrite find_key_fresh, Hash.
  destruct v; try reflexivity. now destruct (NoStr s).
Qed.

Lemma style_mapping_lookup s :
  dict_of [("big_text", VStr "big_text"); ("big_picture", VStr "big_picture");
           ("inbox", VStr "lines")] !! s = VStr <$> style_key s.
Proof.
  unfold style_key. cbn [dict_of fold_left fst snd].
  rewrite !lookup_insert, lookup_empty.
  destruct (String.eqb_spec s "big_text") as [->|N1]; [reflexivity|].
  destruct (String.eqb_spec s "big_picture") as [->|N2]; [reflexivity|].
  destruct (String.eqb_spec s "inbox") as [->|N3]; [reflexivity|].
  repeat case_decide; subst; try congruence; reflexivity.
Qed.

(** [style] with one of the names ['big_text'], ['big_picture'], ['inbox']
    returns a document with ['type'], the content under the key of the style
    (['lines'] for ['inbox']) and the title and summary that are supplied.
    Any other string raises [ValueError], and so does, or with another
    error, a [style_type] that is no string. *)
Theorem style_outcomes (h : heap) (content title summary : value) :
  (forall s k,
      style_key s = Some k ->
      exists mapping display,
        style (VStr s) content title summary h =
        (h ++ [ODict mapping; ODict display;
               ODict (put "summary" summary (put "title" title
                       (put k content {[ "type" := VStr s ]})))],
         Ret (VRef (S (S (length h)))))) /\
  (forall s,
      style_key s = None ->
      exists mapping,
        style (VStr s) content title summary h =
        (h ++ [ODict mapping], Raise ValueError)) /\
  (forall v,
      (forall s, v <> VStr s) ->
      exists mapping e,
        style v content title summary h = (h ++ [ODict mapping], Raise e)).
Proof.
  split; [|split].
  - intros s k Key. eexists _, _. unfold style. step_refl.
    step_by ltac:(apply find_key_str).
    rewrite style_mapping_lookup, Key. cbn [fmap option_fmap option_map str_of].
    assert (ND : NoDup [("type", VStr s); (k, content); ("title", title);
                        ("summary", summary)].*1).
    { unfold style_key in Key.
      repeat match type of Key with
             | (if ?c then _ else _) = _ => destruct c
             end; simplify_eq; distinct_keys. }
    rewrite (display_builder_document _ _ ND).
    rewrite <- app_assoc, length_fresh. reflexivity.
  - intros s Key. eexists. unfold style. step_refl.
    step_by ltac:(apply find_key_str).
    now rewrite style_mapping_lookup, Key.
  - intros v NoStr. unfold style. step_refl.
    destruct (hashable v) eqn:Hash.
    + eexists _, ValueError.
      step_by ltac:(apply find_key_no_str; assumption). reflexivity.
    + eexists _, TypeError. apply bind_raise_run.
      rewrite find_key_fresh. now rewrite Hash.
Qed.

Lemma style_outcomes_witness :
  (exists mapping display,
      style (VStr "inbox") (VRef 0%nat) VNone VNone
            [OList [VStr "a"; VStr "b"]] =
      ([OList [VStr "a"; VStr "b"]; ODict mapping; ODict display;
        ODict (<["lines" := VRef 0%nat]> {[ "type" := VStr "inbox" ]})],
       Ret (VRef 3%nat))) /\
  (exists mapping,
      style (VStr "bogus") (VStr "x") VNone VNone [] =
      ([ODict mapping], Raise ValueError)).
Proof.
  split.
  - apply (proj1 (style_outcomes [OList [VStr "a"; VStr "b"]] (VRef 0%nat)
                    VNone VNone) "inbox" "lines").
    reflexivity.
  - apply (proj1 (proj2 (style_outcomes [] (VStr "x") VNone VNone)) "bogus").
    reflexivity.
Defined.

(** ** notification, beyond the empty document *)

Lemma put_lookup k v d k' :
  put k v d !! k' =
  if decide (k = k') then (if is_not_none v then Some v else d !! k')
  else d !! k'.
Proof.
  unfold put. destruct (is_not_none v); [apply lookup_insert|].
  now case_decide.
Qed.

Lemma notification_fields_lookup alert ios android amazon web wns actions
    interactive in_app :
  let d := notification_fields alert ios android amazon web wns actions
             interactive in_app in
  d !! "alert" = kept (Some alert) /\ d !! "actions" = kept (Some actions) /\
  d !! "ios" = kept (Some ios) /\ d !! "android" = kept (Some android) /\
  d !! "amazon" = kept (Some amazon) /\ d !! "web" = kept (Some web) /\
  d !! "wns" = kept (Some wns) /\
  d !! "interactive" = kept (Some interactive) /\
  d !! "in_app" = kept (Some in_app).
Proof.
  cbn zeta. unfold notification_fields, kept.
  repeat split; rewrite !put_lookup, lookup_empty; repeat case_decide;
    try congruence; reflexivity.
Qed.

(** The nine arguments other than [open_platform] are fields under their
    own names exactly when they are supplied, whatever [open_platform]
    holds: its entries go under keys that start with ['open::'] and replace
    none of the nine. *)
Theorem notification_standard_fields (h : heap)
    (alert ios android amazon web wns actions interactive in_app
     open_platform : value) (m : gmap string value) :
  open_entries h open_platform = Some m ->
  exists d,
    (notification alert ios android amazon web wns actions interactive in_app
                  open_platform h).1 = h ++ [ODict d] /\
    d !! "alert" = kept (Some alert) /\ d !! "actions" = kept (Some actions) /\
    d !! "ios" = kept (Some ios) /\ d !! "android" = kept (Some android) /\
    d !! "amazon" = kept (Some amazon) /\ d !! "web" = kept (Some web) /\
    d !! "wns" = kept (Some wns) /\
    d !! "interactive" = kept (Some interactive) /\
    d !! "in_app" = kept (Some in_app).
Proof.
  intros Op. rewrite (notification_run _ _ _ _ _ _ _ _ _ _ _ _ Op).
  cbn zeta. eexists. split; [reflexivity|].
  rewrite !put_open_other by (intros name _; discriminate).
  apply notification_fields_lookup.
Qed.

Lemma notification_standard_fields_witness :
  exists d,
    (notification (VStr "Hello") VNone VNone VNone VNone VNone VNone VNone
                  VNone (VRef 0%nat) [ODict {[ "alert" := VStr "sms" ]}]).1
      = [ODict {[ "alert" := VStr "sms" ]}] ++ [ODict d] /\
    d !! "alert" = Some (VStr "Hello").
Proof.
  destruct (notification_standard_fields [ODict {[ "alert" := VStr "sms" ]}]
              (VStr "Hello") VNone VNone VNone VNone VNone VNone VNone VNone
              (VRef 0%nat) {[ "alert" := VStr "sms" ]} eq_refl)
    as (d & Heap & Alert & _).
  exists d. split; [exact Heap | exact Alert].
Defined.

Lemma items_not_dict h t v :
  in_heap h v = true -> isinstance h v TDict = false ->
  items v (h ++ t) = (h ++ t, Raise AttributeError).
Proof.
  intros In NoDict. unfold items. destruct v; try reflexivity.
  cbn in In, NoDict. apply Nat.ltb_lt in In. rewrite lookup_old by exact In.
  now destruct (h !! l) as [[|]|].
Qed.

(** An [open_platform] that is supplied and is no dictionary has no
    [items]: [notification] raises [AttributeError], whatever the other
    arguments. *)
Theorem notification_open_platform_no_dict (h : heap)
    (alert ios android amazon web wns actions interactive in_app
     open_platform : value) :
  in_heap h open_platform = true ->
  open_platform <> VNone ->
  isinstance h open_platform TDict = false ->
  (notification alert ios android amazon web wns actions interactive in_app
                open_platform h).2 = Raise AttributeError.
Proof.
  intros In Supplied NoDict. unfold notification, new_dict. step_refl.
  do 9 step_with when_setitem_fresh.
  replace (is_not_none open_platform) with true
    by (now destruct open_platform).
  cbn [when]. norm.
  erewrite bind_raise_run; [reflexivity|].
  now apply items_not_dict.
Qed.

Lemma notification_open_platform_no_dict_witness :
  (notification (VStr "Hello") VNone VNone VNone VNone VNone VNone VNone VNone
                (VStr "sms") []).2 = Raise AttributeError.
Proof.
  apply notification_open_platform_no_dict;
    [reflexivity | discriminate | reflexivity].
Defined.

(** ** campaigns, the list it returns *)

(** The list in the document is a copy: [campaigns] given a list of one to
    ten categories returns a document whose ['categories'] is a new list
    with the same elements, at another location than the argument, which is
    left as it was. *)
Theorem campaigns_copies_list (h : heap) (l : loc) (cs : list value) :
  list_at h l = Some cs ->
  (1 <= length cs <= 10)%nat ->
  forallb good_category cs = true ->
  exists h' c,
    campaigns (VRef l) h = (h', Ret (VRef (length h))) /\
    dict_at h' (length h) = Some {[ "categories" := VRef c ]} /\
    c <> l /\
    list_at h' c = Some cs /\
    list_at h' l = Some cs.
Proof.
  intros At Len Good. rewrite (campaigns_list _ _ _ At), Good.
  replace ((length cs =? 0)%nat || (10 <? length cs)%nat) with false.
  2:{ symmetry. apply orb_false_iff.
      rewrite Nat.eqb_neq, Nat.ltb_ge. lia. }
  assert (Lt : (l < length h)%nat).
  { unfold list_at in At. destruct (h !! l) eqn:L; [|discriminate].
    now apply lookup_lt_Some in L. }
  eexists _, _. split; [reflexivity|].
  split; [apply dict_at_fresh|]. split; [lia|]. split.
  - unfold list_at. now rewrite lookup_second.
  - unfold list_at in *. now rewrite lookup_old.
Qed.

Lemma campaigns_copies_list_witness :
  exists h' c,
    campaigns (VRef 0%nat) [OList [VStr "kittens"; VStr "tacos"]] =
      (h', Ret (VRef 1%nat)) /\
    dict_at h' 1%nat = Some {[ "categories" := VRef c ]} /\
    c <> 0%nat /\
    list_at h' c = Some [VStr "kittens"; VStr "tacos"] /\
    list_at h' 0%nat = Some [VStr "kittens"; VStr "tacos"].
Proof.
  apply (campaigns_copies_list [OList [VStr "kittens"; VStr "tacos"]] 0%nat
           [VStr "kittens"; VStr "tacos"]);
    [reflexivity | cbn; lia | reflexivity].
Defined.

(** Whenever [campaigns] returns, the result is its new document, the first
    object past the caller's heap. *)
Lemma campaigns_returns h v h' r :
  campaigns v h = (h', Ret r) ->
  r = VRef (length h) /\ exists d t, h' = h ++ ODict d :: t.
Proof.
  intros Run. destruct v.
  - rewrite campaigns_none in Run. simplify_eq. eauto.
  - rewrite campaigns_not_sequence in Run; easy.
  - rewrite campaigns_not_sequence in Run; easy.
  - rewrite campaigns_str in Run.
    destruct (good_category (VStr s)); simplify_eq. eauto.
  - rewrite campaigns_tuple in Run.
    destruct (forallb good_category xs); simplify_eq. eauto.
  - rewrite campaigns_not_sequence in Run; easy.
  - destruct (list_at h l) as [cs|] eqn:Cs.
    + rewrite (campaigns_list _ _ _ Cs) in Run.
      destruct (_ || _); [discriminate|].
      destruct (forallb good_category cs); simplify_eq. eauto.
    + rewrite campaigns_not_sequence in Run; [discriminate | easy |].
      cbn. unfold list_at in Cs. now destruct (h !! l) as [[|]|].
Qed.

(** ** Builders composed *)

Lemma in_heap_fresh (h t : heap) (o : obj) :
  in_heap (h ++ o :: t) (VRef (length h)) = true.
Proof. unfold in_heap. apply Nat.ltb_lt. rewrite length_app. cbn. lia. Qed.

Lemma isinstance_fresh_dict (h t : heap) d :
  isinstance (h ++ ODict d :: t) (VRef (length h)) TDict = true.
Proof. cbn. now rewrite lookup_fresh. Qed.

(** What [campaigns] returns is a [campaigns] argument that [message]
    accepts: with the other optional arguments omitted, the message holds
    [title], [body] and a reference to the campaigns document. *)
Theorem message_of_campaigns (h : heap) (categories title body : value)
    (h' : heap) (c : value) :
  campaigns categories h = (h', Ret c) ->
  (c <- campaigns categories ;;
   message title body VNone VNone VNone VNone VNone VNone c) h =
  (h' ++ [ODict (<["campaigns" := c]>
                   (<["body" := body]> (<["title" := title]> ∅)))],
   Ret (VRef (length h'))).
Proof.
  intros Run. rewrite (bind_ret_run _ _ _ _ _ Run).
  apply campaigns_returns in Run as (-> & d & t & ->).
  apply (proj1 (message_outcome _ title body VNone VNone VNone VNone
                  VNone VNone (VRef (length h)) eq_refl eq_refl
                  (in_heap_fresh _ _ _))).
  unfold message_valid. cbn [optional is_not_none negb orb andb].
  apply isinstance_fresh_dict.
Qed.

Lemma message_of_campaigns_witness :
  (c <- campaigns (VStr "kittens") ;;
   message (VStr "Hi") (VStr "there") VNone VNone VNone VNone VNone VNone c) []
  = ([ODict {[ "categories" := VRef 2%nat ]}; OList [VStr "kittens"];
      OList [VStr "kittens"];
      ODict (<["campaigns" := VRef 0%nat]>
               (<["body" := VStr "there"]> (<["title" := VStr "Hi"]> ∅)))],
     Ret (VRef 3%nat)).
Proof.
  apply (message_of_campaigns [] (VStr "kittens") (VStr "Hi") (VStr "there")
           [ODict {[ "categories" := VRef 2%nat ]}; OList [VStr "kittens"];
            OList [VStr "kittens"]] (VRef 0%nat)).
  reflexivity.
Defined.

(** What [wearable] returns is a [wearable] argument that [android]
    accepts. *)
Theorem android_of_wearable (h : heap)
    (background_image extra_pages interactive alert : value) :
  exists display w,
    (w <- wearable background_image extra_pages interactive ;;
     android alert VNone VNone (VBool false) VNone VNone VNone w VNone VNone
             VNone VNone VNone VNone VNone VNone VNone VNone VNone VNone
             VNone) h =
    (h ++ [ODict display; ODict w;
           ODict (put "wearable" (VRef (S (length h)))
                   (put "alert" alert ∅))],
     Ret (VRef (S (S (length h))))) /\
    w = put "interactive" interactive
          (put "extra_pages" extra_pages
            (put "background_image" background_image ∅)).
Proof.
  destruct (wearable_outcome h background_image extra_pages interactive)
    as (display & Run).
  eexists display, _. split; [|reflexivity].
  rewrite (bind_ret_run _ _ _ _ _ Run).
  set (w := put _ _ _).
  pose proof (android_outcome (h ++ [ODict display; ODict w])
    alert VNone VNone (VBool false) VNone VNone VNone (VRef (S (length h)))
    VNone VNone VNone VNone VNone VNone VNone VNone VNone VNone VNone VNone
    VNone eq_refl) as A.
  assert (In : in_heap (h ++ [ODict display; ODict w]) (VRef (S (length h)))
               = true).
  { unfold in_heap. apply Nat.ltb_lt. rewrite length_app. cbn. lia. }
  destruct (A In) as [Returns _]. rewrite Returns.
  - rewrite <- app_assoc. cbn [app]. do 2 f_equal.
    rewrite length_app. cbn [length]. f_equal. lia.
  - unfold android_valid.
    cbn [optional is_not_none negb orb andb isinstance].
    now rewrite lookup_second.
Qed.

Lemma ios_returns_ref h alert badge sound content_available extra expiry
    interactive category title mutable_content subtitle media_attachment
    priority collapse_id h' v :
  ios alert badge sound content_available extra expiry interactive category
      title mutable_content subtitle media_attachment priority collapse_id h
  = (h', Ret v) ->
  v = VRef (length h) /\ exists d, h' = h ++ [ODict d].
Proof.
  unfold ios, new_dict. rewrite (bind_ret_run _ _ _ _ _ eq_refl).
  set (body := bind _ _). intros Run.
  assert (H : hoare (payload_has h (fun _ => True)) body
                (fun v h' => v = VRef (length h) /\
                             payload_has h (fun _ => True) h')
                (payload_has h (fun _ => True))).
  { subst body. hoare_block ltac:(exact I). apply hoare_ret. now intros. }
  specialize (H (h ++ [ODict ∅])). rewrite Run in H.
  destruct H as (-> & d & -> & _); [now exists ∅|]. eauto.
Qed.

(** [notification(ios=ios(...))]: whenever [ios] returns, the notification
    built from its result alone returns too, a document whose one field
    ['ios'] refers to the document of [ios], also when that one is empty. *)
Theorem notification_of_ios (h : heap)
    (alert badge sound content_available extra expiry interactive category
     title mutable_content subtitle media_attachment priority
     collapse_id : value) (h' : heap) (i : value) :
  ios alert badge sound content_available extra expiry interactive category
      title mutable_content subtitle media_attachment priority collapse_id h
  = (h', Ret i) ->
  (i <- ios alert badge sound content_available extra expiry interactive
            category title mutable_content subtitle media_attachment priority
            collapse_id ;;
   notification VNone i VNone VNone VNone VNone VNone VNone VNone VNone) h =
  (h' ++ [ODict {[ "ios" := i ]}], Ret (VRef (length h'))) /\
  exists d, i = VRef (length h) /\ dict_at h' (length h) = Some d.
Proof.
  intros Run. rewrite (bind_ret_run _ _ _ _ _ Run).
  apply ios_returns_ref in Run as (-> & d & ->). split.
  - now rewrite (notification_run _ VNone _ VNone VNone VNone VNone VNone
                   VNone VNone VNone ∅ eq_refl).
  - exists d. split; [reflexivity | apply dict_at_fresh].
Qed.

Lemma notification_of_ios_witness :
  (i <- ios VNone VNone VNone (VBool false) VNone VNone VNone VNone VNone VNone
            VNone VNone VNone VNone ;;
   notification VNone i VNone VNone VNone VNone VNone VNone VNone VNone) [] =
  ([ODict ∅] ++ [ODict {[ "ios" := VRef 0%nat ]}], Ret (VRef 1%nat)) /\
  exists d, VRef 0%nat = VRef 0%nat /\ dict_at [ODict ∅] 0%nat = Some d.
Proof.
  apply (notification_of_ios [] VNone VNone VNone (VBool false) VNone VNone
           VNone VNone VNone VNone VNone VNone VNone VNone [ODict ∅]
           (VRef 0%nat)).
  reflexivity.
Defined.

(** ** Calling a builder twice *)

Lemma in_heap_app h t v : in_heap h v = true -> in_heap (h ++ t) v = true.
Proof.
  destruct v; try reflexivity. unfold in_heap. rewrite !Nat.ltb_lt, length_app.
  lia.
Qed.

Lemma ios_valid_fresh h t alert badge expiry category title priority
    collapse_id :
  in_heap h alert = true ->
  ios_valid (h ++ t) alert badge expiry category title priority collapse_id =
  ios_valid h alert badge expiry category title priority collapse_id.
Proof.
  intros In. unfold ios_valid. rewrite (isinstance_fresh _ _ _ TDict In).
  now rewrite !(isinstance_scalar (h ++ t) h _ TStr I),
              !(isinstance_scalar (h ++ t) h _ TInt I).
Qed.

(** Two calls of [ios] with the same valid arguments return two documents
    with the same fields at two different locations. *)
Theorem ios_twice (h : heap)
    (alert badge sound content_available extra expiry interactive category
     title mutable_content subtitle media_attachment priority
     collapse_id : value) :
  in_heap h alert = true -> in_heap h content_available = true ->
  ios_valid h alert badge expiry category title priority collapse_id = true ->
  exists d,
    (a <- ios alert badge sound content_available extra expiry interactive
              category title mutable_content subtitle media_attachment
              priority collapse_id ;;
     b <- ios alert badge sound content_available extra expiry interactive
              category title mutable_content subtitle media_attachment
              priority collapse_id ;;
     ret (a, b)) h =
    (h ++ [ODict d; ODict d],
     Ret (VRef (length h), VRef (S (length h)))).
Proof.
  intros InA InC Valid.
  destruct (ios_outcome h alert badge sound content_available extra
              expiry interactive category title mutable_content subtitle
              media_attachment priority collapse_id InA InC) as [First _].
  eexists. rewrite (bind_ret_run _ _ _ _ _ (First Valid)).
  set (d := ios_fields _ _ _ _ _ _ _ _ _ _ _ _ _ _ _).
  destruct (ios_outcome (h ++ [ODict d]) alert badge sound
              content_available extra expiry interactive category title
              mutable_content subtitle media_attachment priority collapse_id
              (in_heap_app _ _ _ InA) (in_heap_app _ _ _ InC))
    as [Second _].
  rewrite (ios_valid_fresh _ _ _ _ _ _ _ _ _ InA) in Second.
  rewrite (bind_ret_run _ _ _ _ _ (Second Valid)).
  unfold ios_fields. rewrite (truthy_fresh _ _ _ InC).
  fold (ios_fields h alert badge sound content_available extra expiry
          interactive category title mutable_content subtitle media_attachment
          priority collapse_id).
  fold d. rewrite <- app_assoc, length_fresh. reflexivity.
Qed.

Lemma ios_twice_witness :
  exists d,
    (a <- ios (VStr "Hello!") VNone VNone (VBool true) VNone VNone VNone VNone
              VNone VNone VNone VNone (VInt 5) VNone ;;
     b <- ios (VStr "Hello!") VNone VNone (VBool true) VNone VNone VNone VNone
              VNone VNone VNone VNone (VInt 5) VNone ;;
     ret (a, b)) [] =
    ([] ++ [ODict d; ODict d], Ret (VRef 0%nat, VRef 1%nat)).
Proof.
  apply (ios_twice [] (VStr "Hello!") VNone VNone (VBool true) VNone VNone
           VNone VNone VNone VNone VNone VNone (VInt 5) VNone);
    reflexivity.
Defined.

(** ** What a returned document says about the arguments *)

Lemma optional_true v c : optional v c = true -> v = VNone \/ c = true.
Proof. unfold optional. destruct v; cbn; auto. Qed.

(** Whenever [ios] returns: [alert] is omitted, a string or a dictionary;
    [badge] is omitted, an integer (a boolean is one) or an autobadge string;
    [expiry] is omitted, a string or an integer; [category], [title] and
    [collapse_id] are omitted or strings; [priority] is omitted, 5 or 10. *)
Theorem ios_returns_validated (h : heap)
    (alert badge sound content_available extra expiry interactive category
     title mutable_content subtitle media_attachment priority
     collapse_id : value) (h' : heap) (v : value) :
  in_heap h alert = true -> in_heap h content_available = true ->
  ios alert badge sound content_available extra expiry interactive category
      title mutable_content subtitle media_attachment priority collapse_id h
  = (h', Ret v) ->
  match alert with
  | VNone | VStr _ => True
  | VRef l => is_Some (dict_at h l)
  | _ => False
  end /\
  match badge with
  | VNone | VInt _ | VBool _ => True
  | VStr s => VALID_AUTOBADGE s = true
  | _ => False
  end /\
  match expiry with VNone | VStr _ | VInt _ | VBool _ => True | _ => False end /\
  match category with VNone | VStr _ => True | _ => False end /\
  match title with VNone | VStr _ => True | _ => False end /\
  (priority = VNone \/ priority = VInt 5 \/ priority = VInt 10) /\
  match collapse_id with VNone | VStr _ => True | _ => False end.
Proof.
  intros InA InC Run.
  destruct (ios_outcome h alert badge sound content_available extra
              expiry interactive category title mutable_content subtitle
              media_attachment priority collapse_id InA InC) as [_ Raises].
  destruct (ios_valid h alert badge expiry category title priority collapse_id)
    eqn:Valid.
  2:{ destruct (Raises eq_refl) as (d & e & Run' & _). congruence. }
  unfold ios_valid in Valid. rewrite !andb_true_iff in Valid.
  destruct Valid as ((((((A & B) & E) & C) & T) & P) & K).
  apply optional_true in A, B, E, C, T, P, K.
  repeat split.
  - destruct A as [->|A]; [exact I|].
    destruct alert; try discriminate; [exact I|].
    cbn in A. unfold dict_at. destruct (h !! l) as [[|]|]; try discriminate.
    eauto.
  - destruct B as [->|B]; [exact I|]. destruct badge; try discriminate; auto.
  - destruct E as [->|E]; [exact I|]. destruct expiry; try discriminate; auto.
  - destruct C as [->|C]; [exact I|]. destruct category; try discriminate; auto.
  - destruct T as [->|T]; [exact I|]. destruct title; try discriminate; auto.
  - destruct P as [->|P]; [now left|]. right.
    destruct priority; try discriminate. cbn in P.
    apply orb_true_iff in P as [P|P]; apply Z.eqb_eq in P; subst; auto.
  - destruct K as [->|K]; [exact I|].
    destruct collapse_id; try discriminate; auto.
Qed.

Lemma ios_returns_validated_witness :
  True /\ VALID_AUTOBADGE "+1" = true /\ True /\ True /\ True /\
  (VInt 10 = VNone \/ VInt 10 = VInt 5 \/ VInt 10 = VInt 10) /\ True.
Proof.
  apply (ios_returns_validated [] (VStr "Hello!") (VStr "+1") VNone
           (VBool false) VNone VNone VNone VNone VNone VNone VNone VNone
           (VInt 10) VNone
           [ODict (<["priority" := VInt 10]> (<["badge" := VStr "+1"]>
                     (<["alert" := VStr "Hello!"]> ∅)))]
           (VRef 0%nat) eq_refl eq_refl).
  reflexivity.
Defined.

(** Whenever [android] returns: an integer [priority] lies between -2 and 2
    and an integer [visibility] between -1 and 1; [category] is omitted or
    one of the thirteen names; [delivery_priority] is omitted, ['high'] or
    ['normal']; [local_only] is omitted or a boolean; [wearable] is omitted
    or a dictionary; [time_to_live] is omitted, a string or an integer; and
    an [icon_color] that is a string has the form [#rrggbb]. *)
Theorem android_returns_validated (h : heap)
    (alert collapse_key time_to_live delay_while_idle extra interactive
     local_only wearable delivery_priority style title summary sound priority
     category visibility public_notification notification_tag
     notification_channel icon icon_color : value) (h' : heap) (v : value) :
  in_heap h delay_while_idle = true -> in_heap h wearable = true ->
  android alert collapse_key time_to_live delay_while_idle extra interactive
    local_only wearable delivery_priority style title summary sound priority
    category visibility public_notification notification_tag
    notification_channel icon icon_color h = (h', Ret v) ->
  match time_to_live with
  | VNone | VStr _ | VInt _ | VBool _ => True
  | _ => False
  end /\
  match local_only with VNone | VBool _ => True | _ => False end /\
  match wearable with
  | VNone => True
  | VRef l => is_Some (dict_at h l)
  | _ => False
  end /\
  (delivery_priority = VNone \/ delivery_priority = VStr "high" \/
   delivery_priority = VStr "normal") /\
  match priority with
  | VNone | VBool _ => True
  | VInt n => -2 <= n <= 2
  | _ => False
  end /\
  match category with
  | VNone => True
  | VStr s => In s VALID_ANDROID_CATEGORIES
  | _ => False
  end /\
  match visibility with
  | VNone | VBool _ => True
  | VInt n => -1 <= n <= 1
  | _ => False
  end /\
  match icon_color with
  | VStr s => VALID_ICON_COLOR s = true
  | _ => True
  end.
Proof.
  intros InD InW Run.
  destruct (android_outcome h alert collapse_key time_to_live
              delay_while_idle extra interactive local_only wearable
              delivery_priority style title summary sound priority category
              visibility public_notification notification_tag
              notification_channel icon icon_color InD InW) as [_ Raises].
  destruct (android_valid h time_to_live local_only wearable delivery_priority
              priority category visibility icon_color) eqn:Valid.
  2:{ destruct (Raises eq_refl) as (d & e & Run' & _). congruence. }
  unfold android_valid in Valid. rewrite !andb_true_iff in Valid.
  destruct Valid as (((((((T & L) & W) & D) & P) & C) & V) & K).
  apply optional_true in T, L, W, D, P, C, V, K.
  repeat split.
  - destruct T as [->|T]; [exact I|].
    destruct time_to_live; try discriminate; auto.
  - destruct L as [->|L]; [exact I|].
    destruct local_only; try discriminate; auto.
  - destruct W as [->|W]; [exact I|]. destruct wearable; try discriminate.
    cbn in W. unfold dict_at. destruct (h !! l) as [[|]|]; try discriminate.
    eauto.
  - destruct D as [->|D]; [now left|]. right.
    destruct delivery_priority; try discriminate. cbn in D.
    apply orb_true_iff in D as [D|D]; apply String.eqb_eq in D; subst; auto.
  - destruct P as [->|P]; [exact I|]. destruct priority; try discriminate; auto.
    cbn in P. apply andb_true_iff in P as [Lo Hi].
    apply Z.leb_le in Lo. apply Z.ltb_lt in Hi. lia.
  - destruct C as [->|C]; [exact I|]. destruct category; try discriminate.
    unfold in_str_tuple in C. apply existsb_exists in C as (s' & In & E).
    cbn in E. apply String.eqb_eq in E. now subst.
  - destruct V as [->|V]; [exact I|].
    destruct visibility; try discriminate; auto.
    cbn in V. apply andb_true_iff in V as [Lo Hi].
    apply Z.leb_le in Lo. apply Z.ltb_lt in Hi. lia.
  - destruct K as [->|K]; [exact I|]. destruct icon_color; auto.
Qed.

Lemma android_returns_validated_witness :
  True /\ True /\ True /\
  (VStr "high" = VNone \/ VStr "high" = VStr "high" \/
   VStr "high" = VStr "normal") /\
  -2 <= 2 <= 2 /\ In "promo" VALID_ANDROID_CATEGORIES /\ True /\
  VALID_ICON_COLOR "#00ff7f" = true.
Proof.
  apply (android_returns_validated [] VNone VNone VNone (VBool false) VNone
           VNone VNone VNone (VStr "high") VNone VNone VNone VNone (VInt 2)
           (VStr "promo") VNone VNone VNone VNone VNone (VStr "#00ff7f")
           [ODict (<["icon_color" := VStr "#00ff7f"]>
                     (<["category" := VStr "promo"]>
                        (<["priority" := VInt 2]>
                           (<["delivery_priority" := VStr "high"]> ∅))))]
           (VRef 0%nat) eq_refl eq_refl).
  reflexivity.
Defined.

(** ** in_app, wns_payload and options on every input *)

(** An [extra] that is supplied and is no dictionary takes no item
    assignment: [in_app] raises [TypeError], after it has built the payload
    from the other arguments. *)
Theorem in_app_extra_no_dict (h : heap)
    (alert display_type expiry display actions interactive extra : value) :
  in_heap h extra = true ->
  extra <> VNone ->
  isinstance h extra TDict = false ->
  in_app alert display_type expiry display actions interactive extra h =
  (h ++ [ODict (in_app_fields alert display_type expiry display actions
                  interactive)],
   Raise TypeError).
Proof.
  intros In Supplied NoDict. unfold in_app, new_dict. step_refl.
  do 2 step_with setitem_fresh. do 4 step_with when_setitem_fresh.
  replace (is_not_none extra) with true by (now destruct extra).
  cbn [when]. apply bind_raise_run.
  unfold setitem. destruct extra; try reflexivity.
  cbn in In, NoDict. apply Nat.ltb_lt in In. rewrite lookup_old by exact In.
  now destruct (h !! l) as [[|]|].
Qed.

Lemma in_app_extra_no_dict_witness :
  in_app (VStr "Sale") (VStr "banner") VNone VNone VNone VNone (VStr "promo")
         [] =
  ([ODict (<["display_type" := VStr "banner"]>
             (<["alert" := VStr "Sale"]> ∅))],
   Raise TypeError).
Proof.
  apply (in_app_extra_no_dict [] (VStr "Sale") (VStr "banner") VNone VNone
           VNone VNone (VStr "promo"));
    [reflexivity | discriminate | reflexivity].
Defined.

(** [wns_payload] returns exactly when one of its four arguments is true;
    the document then has a field for every argument that is not [None], and
    otherwise the error is [ValueError] and nothing is allocated. *)
Theorem wns_payload_returns_iff_one_true (h : heap)
    (alert toast tile badge : value) :
  (count_truthy h [alert; toast; tile; badge] = 1%nat ->
   wns_payload alert toast tile badge h =
   (h ++ [ODict (put "badge" badge (put "tile" tile
                  (put "toast" toast (put "alert" alert ∅))))],
    Ret (VRef (length h)))) /\
  (count_truthy h [alert; toast; tile; badge] <> 1%nat ->
   wns_payload alert toast tile badge h = (h, Raise ValueError)).
Proof.
  rewrite wns_payload_run. split.
  - intros ->. reflexivity.
  - intros N. apply Nat.eqb_neq in N. now rewrite N.
Qed.

Lemma wns_payload_returns_iff_one_true_witness :
  wns_payload VNone (VRef 0%nat) VNone VNone
              [ODict {[ "binding" := VStr "ToastText01" ]}] =
  ([ODict {[ "binding" := VStr "ToastText01" ]};
    ODict {[ "toast" := VRef 0%nat ]}], Ret (VRef 1%nat)) /\
  wns_payload VNone VNone VNone VNone [] = ([], Raise ValueError).
Proof.
  split.
  - apply (proj1 (wns_payload_returns_iff_one_true
                    [ODict {[ "binding" := VStr "ToastText01" ]}]
                    VNone (VRef 0%nat) VNone VNone)).
    reflexivity.
  - apply (proj2 (wns_payload_returns_iff_one_true [] VNone VNone VNone VNone)).
    discriminate.
Defined.

Lemma options_supplied_witness :
  options (VInt 3600) [] =
    ([ODict {[ "expiry" := VInt 3600 ]}], Ret (VRef 0%nat)) /\
  options (VTuple []) [] =
    ([ODict {[ "expiry" := VTuple [] ]}], Raise ValueError).
Proof.
  split.
  - apply (options_supplied [] (VInt 3600)). discriminate.
  - apply (options_supplied [] (VTuple [])). discriminate.
Defined.

(** ** device_types, the error of a rejected tag *)

(** The first tag that [device_types] rejects decides the error.  The
    message is built from the tag with [%] before the [ValueError] is
    raised, so a tuple of a length other than one raises [TypeError]; for
    any other value, a string above all, the error is the [ValueError].  So
    [device_types('ios', ('ios', 'wns'))] raises [TypeError]. *)
Theorem device_types_first_rejected (h : heap) (pre post : list value)
    (t : value) :
  pre ++ t :: post <> [VStr "all"] ->
  forallb accepted_type pre = true ->
  accepted_type t = false ->
  device_types (pre ++ t :: post) h =
  (h, Raise (if one_argument t then ValueError else TypeError)).
Proof.
  intros N Good Bad. rewrite device_types_run by exact N.
  rewrite forallb_app. cbn [forallb]. rewrite Bad, andb_false_r.
  now rewrite (first_error_split _ _ _ _ Good Bad).
Qed.

Lemma device_types_first_rejected_witness :
  device_types [VStr "ios"; VTuple [VStr "ios"; VStr "wns"]; VStr "symbian"]
               [] = ([], Raise TypeError) /\
  device_types [VStr "ios"; VTuple [VStr "symbian"]] [] =
    ([], Raise ValueError).
Proof.
  split.
  - apply (device_types_first_rejected [] [VStr "ios"] [VStr "symbian"]
             (VTuple [VStr "ios"; VStr "wns"]));
      [discriminate | reflexivity | reflexivity].
  - apply (device_types_first_rejected [] [VStr "ios"] []
             (VTuple [VStr "symbian"]));
      [discriminate | reflexivity | reflexivity].
Defined.
